(** * hypothesis-ros: composite strategies for ROS messages

    A shallow embedding of [hypothesis_ros/messages/geometry_messages.py] and
    [hypothesis_ros/messages/rosgraph_msgs.py].

    Python values are a small universe [pyval]; a hypothesis strategy is a
    tree [strategy] whose nodes carry the identity of the Python object; the
    body of every [@composite] function is a Rocq function that receives
    [draw] as its first argument, exactly as the Python function does, and
    runs in a state-and-exception monad.  The state is left abstract in the
    bodies: the hypothesis engine instantiates it with its choice sequence. *)

From Stdlib Require Import ZArith List String Ascii Bool Lia PeanoNat.
From Stdlib Require Import Floats.PrimFloat Uint63.
Import ListNotations.

Set Implicit Arguments.
Set Warnings "-register-all".
Open Scope string_scope.

(* ================================================================= *)
(** ** Python values *)

(** [collections.namedtuple(typename, field_names)]: the class object is
    represented by its type name and its tuple of field names. *)
Record namedtuple_class : Type := Namedtuple_class
  { typename : string;
    _fields : list string }.

(** [field_names.replace(',', ' ').split()]: cut at blanks and commas, drop
    the empty pieces.  [word] is the piece being read. *)
Fixpoint split_names (field_names : string) (word : string) : list string :=
  match field_names with
  | EmptyString => if String.eqb word "" then [] else [word]
  | String c rest =>
      if Ascii.eqb c " " || Ascii.eqb c ","
      then (if String.eqb word "" then [] else [word]) ++ split_names rest ""
      else split_names rest (word ++ String c EmptyString)
  end.

Definition namedtuple (typename field_names : string) : namedtuple_class :=
  {| typename := typename; _fields := split_names field_names "" |}.

Definition class_eqb (c d : namedtuple_class) : bool :=
  String.eqb (typename c) (typename d)
  && Nat.eqb (List.length (_fields c)) (List.length (_fields d))
  && forallb (fun p => String.eqb (fst p) (snd p)) (combine (_fields c) (_fields d)).

(** The values the strategies of this package produce.  A plain tuple is a
    [VTuple None]; an instance of a namedtuple class [c] is a
    [VTuple (Some c)]. *)
Inductive pyval : Type :=
| VNone
| VBool (b : bool)
| VInt (n : Z)
| VFloat (x : float)
| VStr (s : string)
| VList (items : list pyval)
| VTuple (cls : option namedtuple_class) (items : list pyval).

(** The second argument of [isinstance]. *)
Inductive pytype : Type :=
| py_bool
| py_int
| py_float
| py_str
| py_list
| py_tuple
| py_class (c : namedtuple_class).

(** [isinstance(v, t)], with Python's subclassing: [bool] is a subclass of
    [int], every namedtuple class is a subclass of [tuple]. *)
Definition isinstance (v : pyval) (t : pytype) : bool :=
  match t, v with
  | py_bool, VBool _ => true
  | py_int, VInt _ => true
  | py_int, VBool _ => true
  | py_float, VFloat _ => true
  | py_str, VStr _ => true
  | py_list, VList _ => true
  | py_tuple, VTuple _ _ => true
  | py_class c, VTuple (Some d) _ => class_eqb c d
  | _, _ => false
  end.

(** The items of a sequence value. *)
Definition items_of (v : pyval) : list pyval :=
  match v with
  | VList l => l
  | VTuple _ l => l
  | _ => []
  end.

(** [tuple.__eq__] does not look at the class of either side: a namedtuple
    equals the plain tuple of its items.  [plain] forgets the classes, so
    that [plain v = plain w] is Python's [v == w] on tuples and lists of
    values of the same kinds. *)
Fixpoint plain (v : pyval) : pyval :=
  match v with
  | VList l => VList (map plain l)
  | VTuple _ l => VTuple None (map plain l)
  | _ => v
  end.

(* ================================================================= *)
(** ** Strategies *)

(** The functions decorated with [@composite]. *)
Module Def.
Inductive t : Type :=
| time
| header
| point
| quaternion
| pose
| pose_with_covariance
| pose_with_covariance_stamped
| vector3
| transform
| transform_stamped
| log.

Definition eqb (a b : t) : bool :=
  match a, b with
  | time, time | header, header | point, point | quaternion, quaternion
  | pose, pose | pose_with_covariance, pose_with_covariance
  | pose_with_covariance_stamped, pose_with_covariance_stamped
  | vector3, vector3 | transform, transform
  | transform_stamped, transform_stamped | log, log => true
  | _, _ => false
  end.
End Def.

(** A strategy object.  [uid] is the identity of the Python object ([id(s)]):
    two nodes with the same [uid] are one object reached along two paths.
    [CompositeStrategy] is what calling a [@composite] function returns: the
    decorated definition together with the strategies bound to its
    parameters, in parameter order. *)
Inductive strategy : Type :=
| JustStrategy (uid : nat) (value : pyval)
| BooleansStrategy (uid : nat)
| IntegersStrategy (uid : nat) (min_value max_value : Z)
| FloatsStrategy (uid : nat) (min_value max_value : option float)
| TextStrategy (uid : nat) (alphabet : option string) (min_size max_size : nat)
| ListStrategy (uid : nat) (elements : strategy) (min_size max_size : nat)
| CompositeStrategy (uid : nat) (definition : Def.t) (args : list strategy).

Definition uid_of (s : strategy) : nat :=
  match s with
  | JustStrategy u _ | BooleansStrategy u | IntegersStrategy u _ _
  | FloatsStrategy u _ _ | TextStrategy u _ _ _ | ListStrategy u _ _ _
  | CompositeStrategy u _ _ => u
  end.

(** Induction over strategies that also reaches the arguments of a
    composite. *)
Section StrategyInduction.
Variable P : strategy -> Prop.
Hypothesis Hjust : forall u v, P (JustStrategy u v).
Hypothesis Hbool : forall u, P (BooleansStrategy u).
Hypothesis Hint : forall u lo hi, P (IntegersStrategy u lo hi).
Hypothesis Hfloat : forall u lo hi, P (FloatsStrategy u lo hi).
Hypothesis Htext : forall u a lo hi, P (TextStrategy u a lo hi).
Hypothesis Hlist : forall u e lo hi, P e -> P (ListStrategy u e lo hi).
Hypothesis Hcomp : forall u d args, Forall P args -> P (CompositeStrategy u d args).

Fixpoint strategy_rect' (s : strategy) : P s :=
  match s with
  | JustStrategy u v => Hjust u v
  | BooleansStrategy u => Hbool u
  | IntegersStrategy u lo hi => Hint u lo hi
  | FloatsStrategy u lo hi => Hfloat u lo hi
  | TextStrategy u a lo hi => Htext u a lo hi
  | ListStrategy u e lo hi => Hlist u lo hi (strategy_rect' e)
  | CompositeStrategy u d args =>
      Hcomp u d
        ((fix all (l : list strategy) : Forall P l :=
            match l with
            | [] => Forall_nil P
            | a :: l' => Forall_cons a (strategy_rect' a) (all l')
            end) args)
  end.
End StrategyInduction.

(* ================================================================= *)
(** ** Exceptions and the monad *)

(** What [str.format] and an [assert] message can mention. *)
Inductive pyobj : Type :=
| Value (v : pyval)
| Generator (s : strategy).

(** A formatted message: literal text and the objects substituted into it.
    The objects are kept as they are instead of being rendered with
    [format(obj, '')]. *)
Inductive chunk : Type :=
| Literal (text : string)
| Shown (o : pyobj).

Definition message : Type := list chunk.

Inductive exn : Type :=
| AssertionError (msg : message)
| KeyError (key : string)
| IndexError (msg : string)
| ValueError (msg : string)
| TypeError (msg : string)
| NameError (name : string)
| InvalidArgument (msg : string).

Inductive outcome (A : Type) : Type :=
| Return (a : A)
| Raise (e : exn).
Arguments Return {A} a.
Arguments Raise {A} e.

(** A computation over a state [St] that returns or raises; the state
    reached when the exception was raised is kept. *)
Definition M (St A : Type) : Type := St -> outcome A * St.

Definition ret {St A : Type} (a : A) : M St A := fun st => (Return a, st).

Definition raise {St A : Type} (e : exn) : M St A := fun st => (Raise e, st).

Definition bind {St A B : Type} (m : M St A) (k : A -> M St B) : M St B :=
  fun st =>
    match m st with
    | (Return a, st') => k a st'
    | (Raise e, st') => (Raise e, st')
    end.

Definition lift {St A : Type} (o : outcome A) : M St A := fun st => (o, st).

Declare Scope py_scope.
Delimit Scope py_scope with py.
Notation "x <- m ;; k" := (bind m (fun x => k))
  (at level 61, m at next level, right associativity) : py_scope.
Notation "m ;; k" := (bind m (fun _ => k))
  (at level 61, right associativity) : py_scope.
Open Scope py_scope.

(* ================================================================= *)
(** ** [str.format] *)

(** Where the scan of a template stands: in literal text, just after an
    opening or a closing brace, or inside a replacement field whose name
    has been read so far. *)
Inductive format_state : Type :=
| InText
| AfterOpen
| AfterClose
| InField (name : string).

(** Literal characters are gathered into the last literal chunk; [out] is
    kept in reverse. *)
Definition push_char (c : ascii) (out : message) : message :=
  match out with
  | Literal text :: rest => Literal (text ++ String c EmptyString) :: rest
  | _ => Literal (String c EmptyString) :: out
  end.

Definition is_digit (c : ascii) : bool :=
  let n := nat_of_ascii c in (48 <=? n)%nat && (n <=? 57)%nat.

Fixpoint all_digits (s : string) : bool :=
  match s with
  | EmptyString => true
  | String c rest => is_digit c && all_digits rest
  end.

Fixpoint index_of_digits (s : string) (acc : nat) : nat :=
  match s with
  | EmptyString => acc
  | String c rest => index_of_digits rest (10 * acc + (nat_of_ascii c - 48))
  end.

Fixpoint lookup {A : Type} (key : string) (kwargs : list (string * A)) : option A :=
  match kwargs with
  | [] => None
  | (k, a) :: rest => if String.eqb k key then Some a else lookup key rest
  end.

(** The object a replacement field stands for.  An empty name takes the next
    positional argument, a number takes that positional argument, anything
    else is looked up among the keyword arguments: a name that is not a
    keyword argument raises [KeyError(name)]. *)
Definition get_field (name : string) (auto : nat)
    (args : list pyobj) (kwargs : list (string * pyobj)) : outcome pyobj :=
  if String.eqb name "" then
    match nth_error args auto with
    | Some o => Return o
    | None => Raise (IndexError "Replacement index out of range for positional args tuple")
    end
  else if all_digits name then
    match nth_error args (index_of_digits name 0) with
    | Some o => Return o
    | None => Raise (IndexError "Replacement index out of range for positional args tuple")
    end
  else
    match lookup name kwargs with
    | Some o => Return o
    | None => Raise (KeyError name)
    end.

(** [str.format] with positional and keyword arguments, for templates made of literal text,
    doubled braces and replacement fields [{}], [{0}], [{name}] (no
    conversion, no format specification).  The template is read left to
    right and the first field that cannot be resolved raises. *)
Fixpoint format_from (template : string) (st : format_state) (auto : nat)
    (out : message) (args : list pyobj) (kwargs : list (string * pyobj))
    : outcome message :=
  match template with
  | EmptyString =>
      match st with
      | InText => Return (rev out)
      | AfterOpen => Raise (ValueError "Single '{' encountered in format string")
      | AfterClose => Raise (ValueError "Single '}' encountered in format string")
      | InField _ => Raise (ValueError "expected '}' before end of string")
      end
  | String c rest =>
      match st with
      | InText =>
          if Ascii.eqb c "{" then format_from rest AfterOpen auto out args kwargs
          else if Ascii.eqb c "}" then format_from rest AfterClose auto out args kwargs
          else format_from rest InText auto (push_char c out) args kwargs
      | AfterOpen =>
          if Ascii.eqb c "{" then format_from rest InText auto (push_char c out) args kwargs
          else if Ascii.eqb c "}" then
            match get_field "" auto args kwargs with
            | Return o => format_from rest InText (S auto) (Shown o :: out) args kwargs
            | Raise e => Raise e
            end
          else format_from rest (InField (String c EmptyString)) auto out args kwargs
      | AfterClose =>
          if Ascii.eqb c "}" then format_from rest InText auto (push_char c out) args kwargs
          else Raise (ValueError "Single '}' encountered in format string")
      | InField name =>
          if Ascii.eqb c "}" then
            match get_field name auto args kwargs with
            | Return o => format_from rest InText auto (Shown o :: out) args kwargs
            | Raise e => Raise e
            end
          else if Ascii.eqb c "{" then Raise (ValueError "unexpected '{' in field name")
          else format_from rest (InField (name ++ String c EmptyString)) auto out args kwargs
      end
  end.

(** [template.format(a, b)]: the source passes positional arguments only. *)
Definition format (template : string) (args : list pyobj) : outcome message :=
  format_from template InText 0 [] args [].

(* ================================================================= *)
(** ** The record classes of the two modules *)

Definition _Point := namedtuple "Point" "x y z".
Definition _Quaternion := namedtuple "Quaternion" "x y z w".
Definition _Pose := namedtuple "Pose" "position orientation".
Definition _PoseWithCovariance := namedtuple "PoseWithCovariance" "pose covariance".
Definition _PoseWithCovarianceStamped :=
  namedtuple "PoseWithCovarianceStamped" "header pose".
Definition _Transform := namedtuple "Transform" "translation rotation".
Definition _TransformStamped :=
  namedtuple "TransformStamped" "header child_frame_id transform".
Definition _Vector3 := namedtuple "Vector3" "x y z".
Definition _Log := namedtuple "Log" "header level name msg file function line topics".

(** Modelled from the spec: the record classes of [std_msgs] and
    [message_fields], which geometry_messages.py imports ([_Header]) and
    whose modules are not among the sources.  A header is the triple
    (sequence id, stamp, frame id); a time is the pair (seconds,
    nanoseconds); the field names are the keyword names the tests use. *)
Definition _Header := namedtuple "Header" "seq stamp frame_id".
Definition _Time := namedtuple "Time" "secs nsecs".

(** Calling the class with [values]: the instance, or [TypeError] when the number of
    arguments is not the number of fields. *)
Definition new (cls : namedtuple_class) (values : list pyval) : outcome pyval :=
  if Nat.eqb (List.length values) (List.length (_fields cls))
  then Return (VTuple (Some cls) values)
  else Raise (TypeError "__new__() got a wrong number of positional arguments").

(** The name of a type as a message shows it. *)
Definition type_name (t : pytype) : string :=
  match t with
  | py_bool => "bool"
  | py_int => "int"
  | py_float => "float"
  | py_str => "str"
  | py_list => "list"
  | py_tuple => "tuple"
  | py_class c => typename c
  end.

(** Modelled from the spec: the diagnostic asked of a failed field check,
    used by the two composites that are modelled from the spec.  It names
    the field, the value drawn and the generator it came from. *)
Definition diagnostic_message (field : string) (value : pyval) (gen : strategy)
    (declared : pytype) : message :=
  [Literal ("drew invalid " ++ field ++ "="); Shown (Value value);
   Literal " from "; Shown (Generator gen);
   Literal (" for " ++ type_name declared ++ " field")].

Definition diagnostic (field : string) (value : pyval) (gen : strategy)
    (declared : pytype) : outcome message :=
  Return (diagnostic_message field value gen declared).

(* ================================================================= *)
(** ** The composite definitions *)

(** The functions under [@composite], with [draw] as their first parameter.
    They are written once, over any state and any [draw]: the bodies do
    nothing with the state but pass it from one [draw] to the next. *)
Section Definitions.
Variable St : Type.
Variable draw : strategy -> M St pyval.

(** [assert cond, msg]: the message expression is evaluated only when the
    condition is false, and an exception raised while evaluating it is the
    exception the statement raises. *)
Definition assert_ (cond : bool) (msg : outcome message) : M St unit :=
  if cond then ret tt
  else match msg with
       | Return m => raise (AssertionError m)
       | Raise e => raise e
       end.

(** geometry_messages.py, [point]. *)
Definition point (x y z : strategy) : M St pyval :=
  x_value <- draw x ;;
  y_value <- draw y ;;
  z_value <- draw z ;;
  assert_ (isinstance x_value py_float)
    (format "drew invalid x={x_value} from {x} for float64 field"
       [Value x_value; Generator x]) ;;
  assert_ (isinstance y_value py_float)
    (format "drew invalid y={y_value} from {y} for float64 field"
       [Value y_value; Generator y]) ;;
  assert_ (isinstance z_value py_float)
    (format "drew invalid y={z_value} from {z} for float64 field"
       [Value z_value; Generator z]) ;;
  lift (new _Point [x_value; y_value; z_value]).

(** geometry_messages.py, [quaternion]. *)
Definition quaternion (x y z w : strategy) : M St pyval :=
  x_value <- draw x ;;
  y_value <- draw y ;;
  z_value <- draw z ;;
  w_value <- draw w ;;
  assert_ (isinstance x_value py_float)
    (format "drew invalid x={x_value} from {x} for float64 field"
       [Value x_value; Generator x]) ;;
  assert_ (isinstance y_value py_float)
    (format "drew invalid y={y_value} from {y} for float64 field"
       [Value y_value; Generator y]) ;;
  assert_ (isinstance z_value py_float)
    (format "drew invalid y={z_value} from {z} for float64 field"
       [Value z_value; Generator z]) ;;
  assert_ (isinstance w_value py_float)
    (format "drew invalid y={w_value} from {w} for float64 field"
       [Value w_value; Generator w]) ;;
  lift (new _Quaternion [x_value; y_value; z_value; w_value]).

(** geometry_messages.py, [pose]. *)
Definition pose (position orientation : strategy) : M St pyval :=
  position_value <- draw position ;;
  orientation_value <- draw orientation ;;
  assert_ (isinstance position_value (py_class _Point))
    (format "drew invalid position={position_value} from {position} for _Point field"
       [Value position_value; Generator position]) ;;
  assert_ (isinstance orientation_value (py_class _Quaternion))
    (format
       "drew invalid orientation={orientation_value} from {orientation} for _Quaternion field"
       [Value orientation_value; Generator orientation]) ;;
  lift (new _Pose [position_value; orientation_value]).

(** geometry_messages.py, [pose_with_covariance].  The source has no
    assertion here, only the note [TODO: add validation for
    covariance_value]. *)
Definition pose_with_covariance (pose covariance : strategy) : M St pyval :=
  pose_value <- draw pose ;;
  covariance_value <- draw covariance ;;
  lift (new _PoseWithCovariance [pose_value; covariance_value]).

(** geometry_messages.py, [pose_with_covariance_stamped]. *)
Definition pose_with_covariance_stamped (header pose_with_covariance : strategy)
    : M St pyval :=
  header_value <- draw header ;;
  pose_with_covariance_value <- draw pose_with_covariance ;;
  lift (new _PoseWithCovarianceStamped [header_value; pose_with_covariance_value]).

(** geometry_messages.py, [vector3]. *)
Definition vector3 (x y z : strategy) : M St pyval :=
  x_value <- draw x ;;
  y_value <- draw y ;;
  z_value <- draw z ;;
  assert_ (isinstance x_value py_float)
    (format "drew invalid x={x_value} from {x} for float64 field"
       [Value x_value; Generator x]) ;;
  assert_ (isinstance y_value py_float)
    (format "drew invalid y={y_value} from {y} for float64 field"
       [Value y_value; Generator y]) ;;
  assert_ (isinstance z_value py_float)
    (format "drew invalid y={z_value} from {z} for float64 field"
       [Value z_value; Generator z]) ;;
  lift (new _Vector3 [x_value; y_value; z_value]).

(** geometry_messages.py, [transform]. *)
Definition transform (translation rotation : strategy) : M St pyval :=
  translation_value <- draw translation ;;
  rotation_value <- draw rotation ;;
  assert_ (isinstance translation_value (py_class _Vector3))
    (format
       "drew invalid translation={translation_value} from {translation} for _Vector3 field"
       [Value translation_value; Generator translation]) ;;
  assert_ (isinstance rotation_value (py_class _Quaternion))
    (format "drew invalid rotation={rotation_value} from {rotation} for _Quaternion field"
       [Value rotation_value; Generator rotation]) ;;
  lift (new _Transform [translation_value; rotation_value]).

(** geometry_messages.py, [transform_stamped]. *)
Definition transform_stamped (header child_frame_id transform : strategy)
    : M St pyval :=
  header_value <- draw header ;;
  child_frame_id_value <- draw child_frame_id ;;
  transform_value <- draw transform ;;
  assert_ (isinstance header_value (py_class _Header))
    (format "drew invalid header={header_value} from {header} for _Header field"
       [Value header_value; Generator header]) ;;
  assert_ (isinstance child_frame_id_value py_str)
    (format
       "drew invalid child_frame_id={child_frame_id_value} from {child_frame_id} for string field"
       [Value child_frame_id_value; Generator child_frame_id]) ;;
  assert_ (isinstance transform_value (py_class _Transform))
    (format "drew invalid transform={transform_value} from {transform} for _Transform field"
       [Value transform_value; Generator transform]) ;;
  lift (new _TransformStamped [header_value; child_frame_id_value; transform_value]).

(** rosgraph_msgs.py, [log]. *)
Definition log (header level name msg file function line topics : strategy)
    : M St pyval :=
  header_value <- draw header ;;
  level_value <- draw level ;;
  name_value <- draw name ;;
  msg_value <- draw msg ;;
  file_value <- draw file ;;
  function_value <- draw function ;;
  line_value <- draw line ;;
  topics_value <- draw topics ;;
  assert_ (isinstance level_value py_int)
    (format "drew invalid level={level_value} from {level} for int field"
       [Value level_value; Generator level]) ;;
  assert_ (isinstance name_value py_str)
    (format "drew invalid name={name_value} from {name} for string field"
       [Value name_value; Generator name]) ;;
  assert_ (isinstance msg_value py_str)
    (format "drew invalid msg={msg_value} from {msg} for string field"
       [Value msg_value; Generator msg]) ;;
  assert_ (isinstance file_value py_str)
    (format "drew invalid file={file_value} from {file} for string field"
       [Value file_value; Generator file]) ;;
  assert_ (isinstance function_value py_str)
    (format "drew invalid function={function_value} from {function} for string field"
       [Value function_value; Generator function]) ;;
  assert_ (isinstance line_value py_int)
    (format "drew invalid line={line_value} from {line} for int field"
       [Value line_value; Generator line]) ;;
  assert_ (isinstance topics_value py_list)
    (format "drew invalid topics={topics_value} from {msg} for list field"
       [Value topics_value; Generator topics]) ;;
  lift (new _Log [header_value; level_value; name_value; msg_value; file_value;
                  function_value; line_value; topics_value]).

(** Modelled from the spec: [message_fields.time], which is not among the
    sources.  A fixed two-field composite (seconds, nanoseconds), each a
    bounded unsigned integer, produced as an ordered pair; as a composite
    it draws its fields in order and asserts their declared types. *)
Definition time (secs nsecs : strategy) : M St pyval :=
  secs_value <- draw secs ;;
  nsecs_value <- draw nsecs ;;
  assert_ (isinstance secs_value py_int)
    (diagnostic "secs" secs_value secs py_int) ;;
  assert_ (isinstance nsecs_value py_int)
    (diagnostic "nsecs" nsecs_value nsecs py_int) ;;
  lift (new _Time [secs_value; nsecs_value]).

(** Modelled from the spec: [std_msgs.header], which is not among the
    sources.  The record (sequence id, stamp, frame id) of section 8, with
    the draw-assert-assemble contract of section 4.2. *)
Definition header (seq stamp frame_id : strategy) : M St pyval :=
  seq_value <- draw seq ;;
  stamp_value <- draw stamp ;;
  frame_id_value <- draw frame_id ;;
  assert_ (isinstance seq_value py_int)
    (diagnostic "seq" seq_value seq py_int) ;;
  assert_ (isinstance stamp_value (py_class _Time))
    (diagnostic "stamp" stamp_value stamp (py_class _Time)) ;;
  assert_ (isinstance frame_id_value py_str)
    (diagnostic "frame_id" frame_id_value frame_id py_str) ;;
  lift (new _Header [seq_value; stamp_value; frame_id_value]).

(** [CompositeStrategy.do_draw]: call the definition with [draw] and the
    bound arguments.  A call with the wrong number of arguments is the
    [TypeError] Python raises for it. *)
Definition apply_definition (d : Def.t) (args : list strategy) : M St pyval :=
  match d, args with
  | Def.time, [secs; nsecs] => time secs nsecs
  | Def.header, [seq; stamp; frame_id] => header seq stamp frame_id
  | Def.point, [x; y; z] => point x y z
  | Def.quaternion, [x; y; z; w] => quaternion x y z w
  | Def.pose, [position; orientation] => pose position orientation
  | Def.pose_with_covariance, [pose; covariance] =>
      pose_with_covariance pose covariance
  | Def.pose_with_covariance_stamped, [header; pose_with_covariance] =>
      pose_with_covariance_stamped header pose_with_covariance
  | Def.vector3, [x; y; z] => vector3 x y z
  | Def.transform, [translation; rotation] => transform translation rotation
  | Def.transform_stamped, [header; child_frame_id; transform] =>
      transform_stamped header child_frame_id transform
  | Def.log, [header; level; name; msg; file; function; line; topics] =>
      log header level name msg file function line topics
  | _, _ => raise (TypeError "wrong number of positional arguments")
  end.
End Definitions.

(* ================================================================= *)
(** ** The engine: drawing from a strategy *)

(** The hypothesis engine is outside the package.  It is modelled by the
    sequence of choices a draw consumes: every primitive strategy reads the
    next choice and maps it into its range.  A sequence that has run out
    yields 0 from then on, so that every draw is defined. *)
Definition source : Type := list nat.

Definition choice : M source nat :=
  fun src =>
    match src with
    | [] => (Return 0%nat, [])
    | n :: rest => (Return n, rest)
    end.

(** [n] draws in a row, first to last. *)
Fixpoint draw_many {St A : Type} (m : M St A) (n : nat) : M St (list A) :=
  match n with
  | O => ret []
  | S n' => a <- m ;; rest <- draw_many m n' ;; ret (a :: rest)
  end.

(** A size within [lo, hi] picked by the choice [n]. *)
Definition size_between (lo hi n : nat) : nat := (lo + n mod (hi - lo + 1))%nat.

(** The float a choice stands for: the integer [n / 2], negated when [n] is
    odd. *)
Definition float_of_choice (n : nat) : float :=
  let magnitude := PrimFloat.of_uint63 (Uint63.of_Z (Z.of_nat (Nat.div2 n))) in
  if Nat.odd n then PrimFloat.opp magnitude else magnitude.

(** A candidate outside the bounds is replaced by the bound it crossed. *)
Definition clamp (min_value max_value : option float) (x : float) : float :=
  match min_value, max_value with
  | Some lo, _ => if PrimFloat.ltb x lo then lo else
                    match max_value with
                    | Some hi => if PrimFloat.ltb hi x then hi else x
                    | None => x
                    end
  | None, Some hi => if PrimFloat.ltb hi x then hi else x
  | None, None => x
  end.

Definition char_of_choice (alphabet : option string) (n : nat) : ascii :=
  match alphabet with
  | Some a =>
      match String.get (n mod String.length a) a with
      | Some c => c
      | None => " "%char
      end
  | None => ascii_of_nat (n mod 128)
  end.

Fixpoint string_of_chars (cs : list ascii) : string :=
  match cs with
  | [] => EmptyString
  | c :: rest => String c (string_of_chars rest)
  end.

(** [data.draw(strategy)].  A composite calls its definition with this very
    function as [draw]. *)
Fixpoint do_draw (s : strategy) : M source pyval :=
  match s with
  | JustStrategy _ v => ret v
  | BooleansStrategy _ => n <- choice ;; ret (VBool (Nat.odd n))
  | IntegersStrategy _ lo hi =>
      n <- choice ;; ret (VInt (lo + Z.of_nat n mod (hi - lo + 1)))
  | FloatsStrategy _ lo hi =>
      n <- choice ;; ret (VFloat (clamp lo hi (float_of_choice n)))
  | TextStrategy _ alphabet lo hi =>
      n <- choice ;;
      cs <- draw_many (k <- choice ;; ret (char_of_choice alphabet k))
                      (size_between lo hi n) ;;
      ret (VStr (string_of_chars cs))
  | ListStrategy _ elements lo hi =>
      n <- choice ;;
      vs <- draw_many (do_draw elements) (size_between lo hi n) ;;
      ret (VList vs)
  | CompositeStrategy _ d args => apply_definition do_draw d args
  end.

(* ================================================================= *)
(** ** Building strategies: the interpreter state *)

(** A parameter list with its default objects: a function's [__defaults__],
    by parameter name, in parameter order. *)
Definition signature : Type := list (string * strategy).

(** What building strategies reads and writes: the identity the next
    object gets, and the [@composite] functions defined so far, each with
    the default objects its [def] statement evaluated. *)
Record interp : Type := Interp
  { next_uid : nat;
    functions : list (Def.t * signature) }.

Definition Py : Type -> Type := M interp.

Definition initial : interp := {| next_uid := 0; functions := [] |}.

(** The identity of a new object. *)
Definition fresh : Py nat :=
  fun st => (Return (next_uid st),
             {| next_uid := S (next_uid st); functions := functions st |}).

Fixpoint find_function (d : Def.t) (fs : list (Def.t * signature)) : option signature :=
  match fs with
  | [] => None
  | (d', sig) :: rest => if Def.eqb d' d then Some sig else find_function d rest
  end.

(** [hypothesis.strategies.just(value)]. *)
Definition just (value : pyval) : Py strategy :=
  uid <- fresh ;; ret (JustStrategy uid value).

(* ----------------------------------------------------------------- *)
(** *** Field primitives *)

Definition UINT8_MAX_VALUE : Z := 255.
Definition UINT32_MAX_VALUE : Z := 4294967295.

(** Modelled from the spec: the bounded integer constructors of
    [message_fields], which is not among the sources.  Inclusive
    [min_value] / [max_value] defaulting to the full range of the width;
    the generator produces [v] with [min_value <= v <= max_value];
    construction fails when [min_value > max_value]. *)
Definition bounded_integer (full_max : Z) (min_value max_value : option Z)
    : Py strategy :=
  let lo := match min_value with Some v => v | None => 0%Z end in
  let hi := match max_value with Some v => v | None => full_max end in
  if (hi <? lo)%Z then raise (InvalidArgument "min_value > max_value")
  else uid <- fresh ;; ret (IntegersStrategy uid lo hi).

Definition uint8 : option Z -> option Z -> Py strategy :=
  bounded_integer UINT8_MAX_VALUE.

Definition uint32 : option Z -> option Z -> Py strategy :=
  bounded_integer UINT32_MAX_VALUE.

(** Modelled from the spec: [message_fields.float64], which is not among the
    sources.  Inclusive bounds defaulting to unconstrained; the generator
    produces a float within range, and exactly [k] when both bounds are
    [k]; an inverted range (or a bound that is not a number) is a
    construction error. *)
Definition float64 (min_value max_value : option float) : Py strategy :=
  match min_value, max_value with
  | Some lo, Some hi =>
      if PrimFloat.eqb lo hi then uid <- fresh ;; ret (JustStrategy uid (VFloat lo))
      else if PrimFloat.ltb lo hi then
        uid <- fresh ;; ret (FloatsStrategy uid min_value max_value)
      else raise (InvalidArgument "min_value > max_value")
  | _, _ => uid <- fresh ;; ret (FloatsStrategy uid min_value max_value)
  end.

(** The length range used when a size bound is left out. *)
Definition DEFAULT_SIZE_RANGE : Z := 5.

(** Length bounds shared by strings and arrays: inclusive, non-negative,
    not inverted. *)
Definition size_bounds (min_size max_size : option Z) : outcome (nat * nat) :=
  let lo := match min_size with Some v => v | None => 0%Z end in
  let hi := match max_size with Some v => v | None => (lo + DEFAULT_SIZE_RANGE)%Z end in
  if (lo <? 0)%Z then Raise (InvalidArgument "min_size < 0")
  else if (hi <? lo)%Z then Raise (InvalidArgument "min_size > max_size")
  else Return (Z.to_nat lo, Z.to_nat hi).

(** Modelled from the spec: [message_fields.string], which is not among the
    sources.  Optional alphabet and length constraints; produces a
    finite-length character sequence. *)
Definition string_ (alphabet : option string) (min_size max_size : option Z)
    : Py strategy :=
  bounds <- lift (size_bounds min_size max_size) ;;
  match alphabet with
  | Some EmptyString => raise (InvalidArgument "empty alphabet")
  | _ => uid <- fresh ;; ret (TextStrategy uid alphabet (fst bounds) (snd bounds))
  end.

(** Modelled from the spec: [message_fields.bool], which is not among the
    sources.  Produces one of exactly two values. *)
Definition bool_ : Py strategy :=
  uid <- fresh ;; ret (BooleansStrategy uid).

(** Modelled from the spec: [message_fields.array], which is not among the
    sources.  An [elements] generator and inclusive [min_size] / [max_size]
    (a small range when left out); produces a sequence of length [n] with
    [min_size <= n <= max_size], each element drawn from [elements]; a
    malformed bound fails at construction. *)
Definition array (elements : strategy) (min_size max_size : option Z)
    : Py strategy :=
  bounds <- lift (size_bounds min_size max_size) ;;
  uid <- fresh ;;
  ret (ListStrategy uid elements (fst bounds) (snd bounds)).

(* ----------------------------------------------------------------- *)
(** *** [def] and calls of [@composite] functions *)

(** The default expressions of a parameter list are evaluated once, left to
    right, when the [def] statement runs. *)
Fixpoint eval_defaults (params : list (string * Py strategy)) : Py signature :=
  match params with
  | [] => ret []
  | (name, default) :: rest =>
      s <- default ;;
      sig <- eval_defaults rest ;;
      ret ((name, s) :: sig)
  end.

(** [@composite def d(draw, name=default, ...)]. *)
Definition def_ (d : Def.t) (params : list (string * Py strategy)) : Py unit :=
  sig <- eval_defaults params ;;
  fun st => (Return tt,
             {| next_uid := next_uid st; functions := (d, sig) :: functions st |}).

Definition is_keyword (name : string) (kwargs : list (string * strategy)) : bool :=
  existsb (fun kw => String.eqb (fst kw) name) kwargs.

(** Python's binding of arguments to parameters: positional arguments fill
    the parameters from the left, a keyword argument goes to the parameter
    of its name, and a parameter that received neither is bound to its
    default object. *)
Fixpoint bind_parameters (sig : signature) (args : list strategy)
    (kwargs : list (string * strategy)) : outcome (list strategy) :=
  match sig with
  | [] =>
      match args with
      | [] => Return []
      | _ :: _ => Raise (TypeError "too many positional arguments")
      end
  | (name, default) :: sig' =>
      match args with
      | a :: args' =>
          if is_keyword name kwargs
          then Raise (TypeError "got multiple values for argument")
          else match bind_parameters sig' args' kwargs with
               | Return bound => Return (a :: bound)
               | Raise e => Raise e
               end
      | [] =>
          match bind_parameters sig' [] kwargs with
          | Return bound =>
              Return (match lookup name kwargs with
                      | Some g => g
                      | None => default
                      end :: bound)
          | Raise e => Raise e
          end
      end
  end.

Definition known_keywords (sig : signature) (kwargs : list (string * strategy)) : bool :=
  forallb (fun kw => existsb (fun p => String.eqb (fst p) (fst kw)) sig) kwargs.

(** Calling the decorated function [d]: a new [CompositeStrategy] object
    over the bound arguments.  (hypothesis keeps the arguments as given and
    binds them when the strategy is drawn from; the defaults are fixed
    since the [def], so binding them here yields the same objects.) *)
Definition call (d : Def.t) (args : list strategy) (kwargs : list (string * strategy))
    : Py strategy :=
  fun st =>
    match find_function d (functions st) with
    | None => (Raise (NameError "name is not defined"), st)
    | Some sig =>
        if known_keywords sig kwargs then
          match bind_parameters sig args kwargs with
          | Return bound => (uid <- fresh ;; ret (CompositeStrategy uid d bound)) st
          | Raise e => (Raise e, st)
          end
        else (Raise (TypeError "got an unexpected keyword argument"), st)
    end.

(* ----------------------------------------------------------------- *)
(** *** The modules *)

(** Modelled from the spec: the [def] of [message_fields.time]; both fields
    default to a full-range [uint32]. *)
Definition message_fields : Py unit :=
  def_ Def.time [("secs", uint32 None None); ("nsecs", uint32 None None)].

(** Modelled from the spec: the [def] of [std_msgs.header]. *)
Definition std_msgs : Py unit :=
  def_ Def.header
    [("seq", uint32 None None);
     ("stamp", call Def.time [] []);
     ("frame_id", string_ None None None)].

(** Executing geometry_messages.py: one [def] after the other, each
    evaluating its default expressions. *)
Definition geometry_messages : Py unit :=
  def_ Def.point
    [("x", float64 None None); ("y", float64 None None); ("z", float64 None None)] ;;
  def_ Def.quaternion
    [("x", float64 None None); ("y", float64 None None); ("z", float64 None None);
     ("w", float64 None None)] ;;
  def_ Def.pose
    [("position", call Def.point [] []); ("orientation", call Def.quaternion [] [])] ;;
  def_ Def.pose_with_covariance
    [("pose", call Def.pose [] []);
     ("covariance",
       elements <- float64 None None ;; array elements (Some 36%Z) (Some 36%Z))] ;;
  def_ Def.pose_with_covariance_stamped
    [("header", call Def.header [] []);
     ("pose_with_covariance", call Def.pose_with_covariance [] [])] ;;
  def_ Def.vector3
    [("x", float64 None None); ("y", float64 None None); ("z", float64 None None)] ;;
  def_ Def.transform
    [("translation", call Def.vector3 [] []); ("rotation", call Def.quaternion [] [])] ;;
  def_ Def.transform_stamped
    [("header", call Def.header [] []);
     ("child_frame_id", string_ None None None);
     ("transform", call Def.transform [] [])].

(** Executing rosgraph_msgs.py. *)
Definition rosgraph_msgs : Py unit :=
  def_ Def.log
    [("header", call Def.header [] []);
     ("level", uint8 None None);
     ("name", string_ None None None);
     ("msg", string_ None None None);
     ("file", string_ None None None);
     ("function", string_ None None None);
     ("line", uint32 None None);
     ("topics", elements <- string_ None None None ;; array elements None None)].

(** Importing the package: every module is executed once, dependencies
    first. *)
Definition import_package : Py unit :=
  message_fields ;; std_msgs ;; geometry_messages ;; rosgraph_msgs.

(** The interpreter after the import. *)
Definition loaded : interp := Eval vm_compute in snd (import_package initial).

(* ================================================================= *)
(** ** The schema of the composites *)

(** The record class a definition returns an instance of. *)
Definition record_class (d : Def.t) : namedtuple_class :=
  match d with
  | Def.time => _Time
  | Def.header => _Header
  | Def.point => _Point
  | Def.quaternion => _Quaternion
  | Def.pose => _Pose
  | Def.pose_with_covariance => _PoseWithCovariance
  | Def.pose_with_covariance_stamped => _PoseWithCovarianceStamped
  | Def.vector3 => _Vector3
  | Def.transform => _Transform
  | Def.transform_stamped => _TransformStamped
  | Def.log => _Log
  end.

(** The definitions whose source is at hand. *)
Definition source_definitions : list Def.t :=
  [Def.point; Def.quaternion; Def.pose; Def.pose_with_covariance;
   Def.pose_with_covariance_stamped; Def.vector3; Def.transform;
   Def.transform_stamped; Def.log].

(** The semantic type of every field, in field order: what the ROS message
    declares and what the default generator of the field produces. *)
Definition declared_types (d : Def.t) : list pytype :=
  match d with
  | Def.time => [py_int; py_int]
  | Def.header => [py_int; py_class _Time; py_str]
  | Def.point => [py_float; py_float; py_float]
  | Def.quaternion => [py_float; py_float; py_float; py_float]
  | Def.pose => [py_class _Point; py_class _Quaternion]
  | Def.pose_with_covariance => [py_class _Pose; py_list]
  | Def.pose_with_covariance_stamped =>
      [py_class _Header; py_class _PoseWithCovariance]
  | Def.vector3 => [py_float; py_float; py_float]
  | Def.transform => [py_class _Vector3; py_class _Quaternion]
  | Def.transform_stamped => [py_class _Header; py_str; py_class _Transform]
  | Def.log =>
      [py_class _Header; py_int; py_str; py_str; py_str; py_str; py_int; py_list]
  end.

(** The type each definition tests its field against with [isinstance], in
    field order; [None] where the body has no [assert] for the field. *)
Definition checks (d : Def.t) : list (option pytype) :=
  match d with
  | Def.time => [Some py_int; Some py_int]
  | Def.header => [Some py_int; Some (py_class _Time); Some py_str]
  | Def.point => [Some py_float; Some py_float; Some py_float]
  | Def.quaternion => [Some py_float; Some py_float; Some py_float; Some py_float]
  | Def.pose => [Some (py_class _Point); Some (py_class _Quaternion)]
  | Def.pose_with_covariance => [None; None]
  | Def.pose_with_covariance_stamped => [None; None]
  | Def.vector3 => [Some py_float; Some py_float; Some py_float]
  | Def.transform => [Some (py_class _Vector3); Some (py_class _Quaternion)]
  | Def.transform_stamped =>
      [Some (py_class _Header); Some py_str; Some (py_class _Transform)]
  | Def.log =>
      [None; Some py_int; Some py_str; Some py_str; Some py_str; Some py_str;
       Some py_int; Some py_list]
  end.

Definition accepts (c : option pytype) (v : pyval) : bool :=
  match c with
  | Some t => isinstance v t
  | None => true
  end.

(** What a failed check of [field] raises.  In the two source modules the
    message template names its fields ([{x_value}]) while [format] is
    given positional arguments, so that building the message raises
    [KeyError] on the first field of the template, [field ++ "_value"]. *)
Definition check_failure (d : Def.t) (field : string) (t : pytype)
    (v : pyval) (g : strategy) : exn :=
  match d with
  | Def.time | Def.header => AssertionError (diagnostic_message field v g t)
  | _ => KeyError (field ++ "_value")
  end.

(** The first field, in field order, whose value fails its check. *)
Fixpoint first_rejection (d : Def.t) (fields : list string)
    (cs : list (option pytype)) (gens : list strategy) (vs : list pyval)
    : option exn :=
  match fields, cs, gens, vs with
  | f :: fields', c :: cs', g :: gens', v :: vs' =>
      if accepts c v then first_rejection d fields' cs' gens' vs'
      else match c with
           | Some t => Some (check_failure d f t v g)
           | None => None
           end
  | _, _, _, _ => None
  end.

(** Checks, then the record. *)
Definition assemble (d : Def.t) (gens : list strategy) (vs : list pyval)
    : outcome pyval :=
  match first_rejection d (_fields (record_class d)) (checks d) gens vs with
  | Some e => Raise e
  | None => new (record_class d) vs
  end.

Section Generic.
Variable St : Type.
Variable draw : strategy -> M St pyval.

(** One draw per generator, in list order. *)
Fixpoint draw_all (gens : list strategy) : M St (list pyval) :=
  match gens with
  | [] => ret []
  | g :: rest => v <- draw g ;; vs <- draw_all rest ;; ret (v :: vs)
  end.

(** A composite as the spec describes it: draw every field in declared
    order, check, assemble. *)
Definition generic_composite (d : Def.t) (gens : list strategy) : M St pyval :=
  vs <- draw_all gens ;; lift (assemble d gens vs).
End Generic.

(** A strategy all of whose leaves are fixed to a constant: [just], an
    integer range of one value, a list of one length over such elements, a
    composite over such fields. *)
Fixpoint pinned (s : strategy) : bool :=
  match s with
  | JustStrategy _ _ => true
  | IntegersStrategy _ lo hi => (lo =? hi)%Z
  | ListStrategy _ elements lo hi => Nat.eqb lo hi && pinned elements
  | CompositeStrategy _ _ args =>
      (fix all (l : list strategy) : bool :=
         match l with
         | [] => true
         | a :: l' => pinned a && all l'
         end) args
  | _ => false
  end.

(** The default objects of all the functions defined so far. *)
Definition default_objects (st : interp) : list strategy :=
  List.concat (map (fun f => map snd (snd f)) (functions st)).

(** The interpreter with the package imported and [n] objects created. *)
Definition at_uid (n : nat) : interp :=
  {| next_uid := n; functions := functions loaded |}.

(** The strategy of test_std_msgs.py,
    [header(seq=uint32(0, 0), stamp=time(secs=uint32(1, 1), nsecs=uint32(2, 2)),
            frame_id=just('some_tf_frame_name'))]. *)
Definition customized_header : Py strategy :=
  seq <- uint32 (Some 0%Z) (Some 0%Z) ;;
  secs <- uint32 (Some 1%Z) (Some 1%Z) ;;
  nsecs <- uint32 (Some 2%Z) (Some 2%Z) ;;
  stamp <- call Def.time [] [("secs", secs); ("nsecs", nsecs)] ;;
  frame_id <- just (VStr "some_tf_frame_name") ;;
  call Def.header [] [("seq", seq); ("stamp", stamp); ("frame_id", frame_id)].

(** [array(elements=just(0), min_size=4, max_size=4)]. *)
Definition four_zeros : Py strategy :=
  elements <- just (VInt 0) ;; array elements (Some 4%Z) (Some 4%Z).

(** The parameters and default objects of [d] once the package is
    imported. *)
Definition signature_of (d : Def.t) : signature :=
  match find_function d (functions loaded) with
  | Some sig => sig
  | None => []
  end.

(** Every value passes the check of its field. *)
Definition all_accepted (d : Def.t) (vs : list pyval) : bool :=
  forallb (fun p => accepts (fst p) (snd p)) (combine (checks d) vs).

(** [pose_with_covariance(covariance=array(elements=float64(), min_size=2,
    max_size=2))]: an override of the covariance field that does not keep
    the 36 elements. *)
Definition short_covariance : Py strategy :=
  elements <- float64 None None ;;
  covariance <- array elements (Some 2%Z) (Some 2%Z) ;;
  call Def.pose_with_covariance [] [("covariance", covariance)].

(** The fields of [d] for which its body has no check. *)
Definition unchecked_fields (d : Def.t) : list string :=
  map fst
    (filter (fun p => match snd p with Some _ => false | None => true end)
       (combine (_fields (record_class d)) (checks d))).

(** [pose_with_covariance(pose=just(0))]. *)
Definition pose_with_covariance_of_an_int : Py strategy :=
  pose <- just (VInt 0) ;;
  call Def.pose_with_covariance [] [("pose", pose)].

(** [log(header=just(0))]. *)
Definition log_of_an_int : Py strategy :=
  header <- just (VInt 0) ;;
  call Def.log [] [("header", header)].

(** [point(x=just(1))]: an integer where a float is declared. *)
Definition point_of_an_int : Py strategy :=
  x <- just (VInt 1) ;;
  call Def.point [] [("x", x)].

(** The generator a parameter is bound to under the keyword arguments
    [kwargs]. *)
Definition override (kwargs : list (string * strategy)) (p : string * strategy) : strategy :=
  match lookup (fst p) kwargs with
  | Some g => g
  | None => snd p
  end.

(** The outcome of a draw does not depend on the choices. *)
Definition constant_outcome (s : strategy) : Prop :=
  forall src1 src2, fst (do_draw s src1) = fst (do_draw s src2).

(** Every draw from [s] returns a value that the check [c] accepts. *)
Definition well_typed (s : strategy) (c : option pytype) : Prop :=
  forall src, exists v src', do_draw s src = (Return v, src') /\ accepts c v = true.

(* ================================================================= *)
(** ** The messages the definitions generate *)

(** The ROS types behind the fields: a 64-bit float, an unsigned integer up
    to [max_value], a string, an array (of a fixed count when [size] is
    given), a message of the package. *)
Inductive shape : Type :=
| Float64
| Uint (max_value : Z)
| String_
| Array (element : shape) (size : option nat)
| Message (d : Def.t).

(** The fields of every message, in field order, as the default generators
    of the signatures lay them out ([float64()] for a float64 field,
    [array(elements=float64(), min_size=36, max_size=36)] for the
    covariance, [header()] for a header, ...). *)
Definition field_shapes (d : Def.t) : list shape :=
  match d with
  | Def.time => [Uint UINT32_MAX_VALUE; Uint UINT32_MAX_VALUE]
  | Def.header => [Uint UINT32_MAX_VALUE; Message Def.time; String_]
  | Def.point => [Float64; Float64; Float64]
  | Def.quaternion => [Float64; Float64; Float64; Float64]
  | Def.pose => [Message Def.point; Message Def.quaternion]
  | Def.pose_with_covariance => [Message Def.pose; Array Float64 (Some 36%nat)]
  | Def.pose_with_covariance_stamped =>
      [Message Def.header; Message Def.pose_with_covariance]
  | Def.vector3 => [Float64; Float64; Float64]
  | Def.transform => [Message Def.vector3; Message Def.quaternion]
  | Def.transform_stamped => [Message Def.header; String_; Message Def.transform]
  | Def.log =>
      [Message Def.header; Uint UINT8_MAX_VALUE; String_; String_; String_; String_;
       Uint UINT32_MAX_VALUE; Array String_ None]
  end.

(** A value has a shape, at every depth. *)
Inductive conforms : shape -> pyval -> Prop :=
| conforms_float64 (x : float) : conforms Float64 (VFloat x)
| conforms_uint (max_value n : Z) :
    (0 <= n <= max_value)%Z -> conforms (Uint max_value) (VInt n)
| conforms_string (s : string) : conforms String_ (VStr s)
| conforms_array (element : shape) (size : option nat) (l : list pyval) :
    match size with
    | Some n => List.length l = n
    | None => True
    end ->
    Forall (conforms element) l ->
    conforms (Array element size) (VList l)
| conforms_message (d : Def.t) (items : list pyval) :
    Forall2 conforms (field_shapes d) items ->
    conforms (Message d) (VTuple (Some (record_class d)) items).

(** Every draw from [s] returns a value with the property [P]. *)
Definition produces (s : strategy) (P : pyval -> Prop) : Prop :=
  forall src, exists v src', do_draw s src = (Return v, src') /\ P v.

Fixpoint names_eqb (a b : list string) : bool :=
  match a, b with
  | [], [] => true
  | x :: a', y :: b' => String.eqb x y && names_eqb a' b'
  | _, _ => false
  end.

(** The keywords of [d] are the field names of its record. *)
Definition names_agree (d : Def.t) : bool :=
  names_eqb (map fst (signature_of d)) (_fields (record_class d)).

(** The definitions all of whose leaves are [float64] fields. *)
Definition float_only_definitions : list Def.t :=
  [Def.point; Def.quaternion; Def.vector3; Def.pose; Def.transform].

(* ================================================================= *)
(** * Properties *)

Lemma Def_eqb_eq (a b : Def.t) : Def.eqb a b = true <-> a = b.
Proof. destruct a, b; simpl; split; intro H; try reflexivity; discriminate H. Qed.

(** ** The bodies against the generic composite *)

Section Refinement.
Variable St : Type.
Variable draw : strategy -> M St pyval.

Ltac next_draw :=
  match goal with
  | |- context [draw ?g ?s] =>
      let v := fresh "v" in
      let e := fresh "e" in
      let s' := fresh "st" in
      destruct (draw g s) as [[v | e] s']; try reflexivity
  end.

Ltac next_check :=
  match goal with
  | |- context [isinstance ?v ?t] => destruct (isinstance v t); try reflexivity
  end.

Opaque isinstance.

(** Every definition called with as many generators as it has fields is
    the generic composite: it draws the fields in order, fails on the first
    rejected field, and otherwise returns the record of the drawn values. *)
Lemma apply_definition_generic (d : Def.t) (args : list strategy) (st : St) :
  List.length args = List.length (checks d) ->
  apply_definition draw d args st = generic_composite draw d args st.
Proof.
  intro Hlen.
  destruct d; simpl in Hlen;
    repeat (destruct args as [| ? args]; try discriminate Hlen);
    clear Hlen;
    cbv [apply_definition time header point quaternion pose pose_with_covariance
         pose_with_covariance_stamped vector3 transform transform_stamped log
         generic_composite draw_all bind ret lift];
    repeat next_draw;
    cbv [assert_ assemble bind ret raise lift]; simpl;
    repeat next_check.
Qed.

Transparent isinstance.

End Refinement.

(** ** Arity, order and shape *)

Section Shape.
Variable St : Type.
Variable draw : strategy -> M St pyval.

Lemma apply_definition_arity (d : Def.t) (args : list strategy) (st : St) :
  List.length args <> List.length (checks d) ->
  apply_definition draw d args st =
  (Raise (TypeError "wrong number of positional arguments"), st).
Proof.
  intro Hlen.
  destruct d; simpl in Hlen;
    do 9 (destruct args as [| ? args];
          [first [reflexivity | exfalso; apply Hlen; reflexivity] | ]);
    reflexivity.
Qed.

Lemma draw_all_length (gens : list strategy) :
  forall st vs st',
    draw_all draw gens st = (Return vs, st') ->
    List.length vs = List.length gens.
Proof.
  induction gens as [| g gens IH]; intros st vs st' H; simpl in H.
  - inversion H; reflexivity.
  - unfold bind in H.
    destruct (draw g st) as [[v | e] st1]; [| discriminate H].
    destruct (draw_all draw gens st1) as [[vs1 | e] st2] eqn:E; [| discriminate H].
    inversion H; subst. simpl. f_equal. eapply IH; eassumption.
Qed.

(** The [i]-th value is what the [i]-th generator drew, from the state the
    earlier draws left. *)
Lemma draw_all_nth (gens : list strategy) :
  forall st vs st' i g,
    draw_all draw gens st = (Return vs, st') ->
    nth_error gens i = Some g ->
    exists sti v sti', draw g sti = (Return v, sti') /\ nth_error vs i = Some v.
Proof.
  induction gens as [| g0 gens IH]; intros st vs st' i g H Hi.
  - destruct i; discriminate Hi.
  - simpl in H. unfold bind in H.
    destruct (draw g0 st) as [[v | e] st1] eqn:E0; [| discriminate H].
    destruct (draw_all draw gens st1) as [[vs1 | e] st2] eqn:E; [| discriminate H].
    inversion H; subst.
    destruct i as [| i].
    + inversion Hi; subst. exists st, v, st1. split; [assumption | reflexivity].
    + simpl in Hi. simpl. eapply IH; eassumption.
Qed.

End Shape.

Lemma new_returns (cls : namedtuple_class) (vs : list pyval) (v : pyval) :
  new cls vs = Return v ->
  v = VTuple (Some cls) vs /\ List.length vs = List.length (_fields cls).
Proof.
  unfold new. destruct (Nat.eqb _ _) eqn:E; intro H; inversion H.
  split; [reflexivity | apply Nat.eqb_eq; exact E].
Qed.

Lemma assemble_returns (d : Def.t) (gens : list strategy) (vs : list pyval) (v : pyval) :
  assemble d gens vs = Return v ->
  v = VTuple (Some (record_class d)) vs /\
  List.length vs = List.length (_fields (record_class d)).
Proof.
  unfold assemble.
  destruct (first_rejection _ _ _ _ _); [discriminate |].
  apply new_returns.
Qed.

Lemma first_rejection_accepted (d : Def.t) (fields : list string) :
  forall cs gens vs,
    forallb (fun p => accepts (fst p) (snd p)) (combine cs vs) = true ->
    first_rejection d fields cs gens vs = None.
Proof.
  induction fields as [| f fields IH]; intros cs gens vs H; [reflexivity |].
  destruct cs as [| c cs]; [reflexivity |].
  destruct gens as [| g gens]; [reflexivity |].
  destruct vs as [| v vs]; [reflexivity |].
  simpl in H. apply andb_true_iff in H. destruct H as [Hc H].
  simpl. rewrite Hc. apply IH. exact H.
Qed.

Lemma assemble_accepted (d : Def.t) (gens : list strategy) (vs : list pyval) :
  List.length vs = List.length (checks d) ->
  all_accepted d vs = true ->
  assemble d gens vs = Return (VTuple (Some (record_class d)) vs).
Proof.
  intros Hlen Hacc. unfold assemble.
  rewrite first_rejection_accepted by exact Hacc.
  unfold new.
  replace (List.length (_fields (record_class d))) with (List.length (checks d))
    by (destruct d; reflexivity).
  rewrite Hlen, Nat.eqb_refl. reflexivity.
Qed.

(** The parameter list of every definition, as the [def] statements left
    it, has one parameter per field of the record and one check slot per
    field. *)
Lemma signature_matches_record (d : Def.t) :
  List.length (_fields (record_class d)) = List.length (signature_of d) /\
  List.length (signature_of d) = List.length (checks d).
Proof. destruct d; split; vm_compute; reflexivity. Qed.

(** The parameters carry the names of the record's fields, in the record's
    order; the one exception is [pose_with_covariance_stamped], whose second
    parameter is [pose_with_covariance] while the record calls the field
    [pose]. *)
Lemma parameter_names (d : Def.t) :
  d <> Def.pose_with_covariance_stamped ->
  map fst (signature_of d) = _fields (record_class d).
Proof. destruct d; intro H; try (vm_compute; reflexivity). contradiction H; reflexivity. Qed.

(** C1.  Every draw from a composite draws one value from each field
    generator, in the declared field order, starting each draw where the
    previous one stopped; the record it returns holds exactly these values
    in that order and has as many items as the declaration has fields.  The
    draw returns whenever the field draws return values that pass the
    checks. *)
Theorem composite_draws_fields_in_declared_order :
  forall (uid : nat) (d : Def.t) (gens : list strategy) (src : source),
    List.length gens = List.length (signature_of d) ->
    List.length (_fields (record_class d)) = List.length (signature_of d) /\
    match draw_all do_draw gens src with
    | (Raise e, src') =>
        do_draw (CompositeStrategy uid d gens) src = (Raise e, src')
    | (Return vs, src') =>
        List.length vs = List.length (_fields (record_class d)) /\
        snd (do_draw (CompositeStrategy uid d gens) src) = src' /\
        (forall v, fst (do_draw (CompositeStrategy uid d gens) src) = Return v ->
                   v = VTuple (Some (record_class d)) vs) /\
        (all_accepted d vs = true ->
         fst (do_draw (CompositeStrategy uid d gens) src)
         = Return (VTuple (Some (record_class d)) vs))
    end.
Proof.
  intros uid d gens src Hlen.
  destruct (signature_matches_record d) as [Hfields Hchecks].
  split; [exact Hfields |].
  change (do_draw (CompositeStrategy uid d gens)) with (apply_definition do_draw d gens).
  rewrite apply_definition_generic by congruence.
  unfold generic_composite, bind, lift.
  destruct (draw_all do_draw gens src) as [[vs | e] src'] eqn:E; [| reflexivity].
  pose proof (draw_all_length _ _ _ E) as Hvs.
  split; [congruence |]. split; [reflexivity |]. split.
  - simpl. intros v Hv. apply assemble_returns in Hv. tauto.
  - intro Hacc. simpl. apply assemble_accepted; congruence.
Qed.

Lemma composite_draws_fields_in_declared_order_witness :
  List.length [JustStrategy 0 (VFloat 1); JustStrategy 1 (VFloat 2); JustStrategy 2 (VFloat 3)]
  = List.length (signature_of Def.point) /\
  do_draw (CompositeStrategy 3 Def.point
             [JustStrategy 0 (VFloat 1); JustStrategy 1 (VFloat 2); JustStrategy 2 (VFloat 3)])
          [7; 8; 9]%nat
  = (Return (VTuple (Some _Point) [VFloat 1; VFloat 2; VFloat 3]), [7; 8; 9]%nat).
Proof.
  split; [reflexivity |].
  pose proof (composite_draws_fields_in_declared_order 3 Def.point
                [JustStrategy 0 (VFloat 1); JustStrategy 1 (VFloat 2);
                 JustStrategy 2 (VFloat 3)]
                [7; 8; 9]%nat eq_refl) as [_ H].
  simpl in H. destruct H as (_ & Hst & _ & Hret).
  apply injective_projections; [apply Hret; reflexivity | exact Hst].
Defined.

(** ** The primitive strategies *)

Lemma choice_returns (src : source) :
  exists n src', choice src = (Return n, src').
Proof. destruct src as [| n rest]; simpl; eauto. Qed.

Lemma size_between_fixed (n k : nat) : size_between n n k = n.
Proof.
  unfold size_between. rewrite Nat.sub_diag. simpl (0 + 1)%nat.
  rewrite Nat.mod_1_r. apply Nat.add_0_r.
Qed.

Lemma size_between_range (lo hi k : nat) :
  (lo <= hi)%nat -> (lo <= size_between lo hi k <= hi)%nat.
Proof.
  intro H. unfold size_between.
  pose proof (Nat.mod_upper_bound k (hi - lo + 1)). lia.
Qed.

Section DrawMany.
Variables St A : Type.
Variable m : M St A.

Lemma draw_many_length (n : nat) :
  forall st l st', draw_many m n st = (Return l, st') -> List.length l = n.
Proof.
  induction n as [| n IH]; intros st l st' H; simpl in H.
  - inversion H; reflexivity.
  - unfold bind in H.
    destruct (m st) as [[a | e] st1]; [| discriminate H].
    destruct (draw_many m n st1) as [[l1 | e] st2] eqn:E; [| discriminate H].
    inversion H; subst. simpl. f_equal. eapply IH; eassumption.
Qed.

Lemma draw_many_raises (n : nat) :
  forall st e st', draw_many m n st = (Raise e, st') ->
                   exists st1, m st1 = (Raise e, st').
Proof.
  induction n as [| n IH]; intros st e st' H; simpl in H.
  - discriminate H.
  - unfold bind in H.
    destruct (m st) as [[a | e1] st1] eqn:E1.
    + destruct (draw_many m n st1) as [[l1 | e2] st2] eqn:E; [discriminate H |].
      inversion H; subst. eapply IH; eassumption.
    + inversion H; subst. exists st. exact E1.
Qed.

Lemma draw_many_items (n : nat) (P : A -> Prop) :
  (forall st a st', m st = (Return a, st') -> P a) ->
  forall st l st', draw_many m n st = (Return l, st') -> Forall P l.
Proof.
  intro HP. induction n as [| n IH]; intros st l st' H; simpl in H.
  - inversion H; constructor.
  - unfold bind in H.
    destruct (m st) as [[a | e] st1] eqn:E1; [| discriminate H].
    destruct (draw_many m n st1) as [[l1 | e] st2] eqn:E; [| discriminate H].
    inversion H; subst. constructor; [eapply HP; eassumption | eapply IH; eassumption].
Qed.

Lemma draw_many_returns (n : nat) :
  (forall st, exists a st', m st = (Return a, st')) ->
  forall st, exists l st', draw_many m n st = (Return l, st').
Proof.
  intro Hm. induction n as [| n IH]; intro st; simpl.
  - eexists _, _; reflexivity.
  - unfold bind. destruct (Hm st) as (a & st1 & Ha). rewrite Ha.
    destruct (IH st1) as (l & st2 & Hl). rewrite Hl.
    eexists _, _; reflexivity.
Qed.

(** When the outcome of one draw does not depend on the state, neither
    does the outcome of [n] draws in a row. *)
Lemma draw_many_outcome (n : nat) :
  (forall st1 st2, fst (m st1) = fst (m st2)) ->
  forall st1 st2, fst (draw_many m n st1) = fst (draw_many m n st2).
Proof.
  intro Hm. induction n as [| n IH]; intros st1 st2; simpl; [reflexivity |].
  unfold bind. specialize (Hm st1 st2).
  destruct (m st1) as [[a1 | e1] s1], (m st2) as [[a2 | e2] s2];
    simpl in Hm; try discriminate Hm; inversion Hm; subst; [| reflexivity].
  specialize (IH s1 s2).
  destruct (draw_many m n s1) as [[l1 | e1] t1], (draw_many m n s2) as [[l2 | e2] t2];
    simpl in IH; try discriminate IH; inversion IH; subst; reflexivity.
Qed.

End DrawMany.

(** A bounded integer strategy draws within its bounds. *)
Lemma integers_in_range (uid : nat) (lo hi : Z) (src : source) :
  (lo <= hi)%Z ->
  exists v src', do_draw (IntegersStrategy uid lo hi) src = (Return (VInt v), src') /\
                 (lo <= v <= hi)%Z.
Proof.
  intro H. simpl. unfold bind.
  destruct (choice_returns src) as (n & src' & Hn). rewrite Hn.
  eexists _, src'. split; [reflexivity |].
  pose proof (Z.mod_pos_bound (Z.of_nat n) (hi - lo + 1)). lia.
Qed.

Lemma floats_draw_a_float (uid : nat) (lo hi : option float) (src : source) :
  exists x src', do_draw (FloatsStrategy uid lo hi) src = (Return (VFloat x), src').
Proof.
  simpl. unfold bind.
  destruct (choice_returns src) as (n & src' & Hn). rewrite Hn.
  eexists _, _; reflexivity.
Qed.

Lemma text_draws_a_string (uid : nat) (a : option string) (lo hi : nat) (src : source) :
  exists s src', do_draw (TextStrategy uid a lo hi) src = (Return (VStr s), src').
Proof.
  simpl. unfold bind at 1.
  destruct (choice_returns src) as (n & src1 & Hn). rewrite Hn.
  unfold bind at 1.
  destruct (@draw_many_returns source ascii
              (k <- choice ;; ret (char_of_choice a k)) (size_between lo hi n))
    with (st := src1) as (cs & src2 & Hcs).
  - intro st. unfold bind. destruct (choice_returns st) as (k & st' & Hk).
    rewrite Hk. eexists _, _; reflexivity.
  - rewrite Hcs. eexists _, _; reflexivity.
Qed.

(** A list strategy draws a list whose length lies within the size bounds
    and whose items were drawn from [elements]; it raises only what a draw
    from [elements] raised. *)
Lemma lists_draw (uid : nat) (elements : strategy) (lo hi : nat) (src : source) :
  (lo <= hi)%nat ->
  match do_draw (ListStrategy uid elements lo hi) src with
  | (Return v, _) =>
      exists l, v = VList l /\ (lo <= List.length l <= hi)%nat /\
                Forall (fun x => exists s s', do_draw elements s = (Return x, s')) l
  | (Raise e, src') => exists s, do_draw elements s = (Raise e, src')
  end.
Proof.
  intro H. simpl. unfold bind at 1.
  destruct (choice_returns src) as (n & src1 & Hn). rewrite Hn.
  unfold bind.
  destruct (draw_many (do_draw elements) (size_between lo hi n) src1)
    as [[l | e] src2] eqn:E.
  - exists l. split; [reflexivity |]. split.
    + rewrite (draw_many_length _ _ _ E). apply size_between_range. exact H.
    + eapply draw_many_items; [| exact E].
      intros st a st' Ha. eexists _, _; exact Ha.
  - eapply draw_many_raises. exact E.
Qed.

Lemma lists_of_a_constant (uid u : nat) (v : pyval) (n : nat) (src : source) :
  fst (do_draw (ListStrategy uid (JustStrategy u v) n n) src) = Return (VList (repeat v n)).
Proof.
  simpl. unfold bind at 1.
  destruct (choice_returns src) as (k & src1 & Hk). rewrite Hk.
  rewrite size_between_fixed. unfold bind.
  assert (H : forall s, draw_many (@ret source pyval v) n s = (Return (repeat v n), s)).
  { induction n as [| n IH]; intro s; simpl; [reflexivity |].
    unfold bind, ret in *. rewrite IH. reflexivity. }
  rewrite H. reflexivity.
Qed.

(** C6.  A bounded integer generator ([uint8], [uint32]) and a bounded
    float generator ([float64]) built with [min_value == max_value == k]
    are built without error and draw exactly [k], whatever the choices.
    For floats [min_value == max_value] is the float comparison, which a
    bound that is not a number fails. *)
Theorem equal_bounds_draw_the_bound :
  forall (k : Z) (x : float) (st : interp),
    PrimFloat.eqb x x = true ->
    (exists s, fst (uint8 (Some k) (Some k) st) = Return s /\
               forall src, fst (do_draw s src) = Return (VInt k)) /\
    (exists s, fst (uint32 (Some k) (Some k) st) = Return s /\
               forall src, fst (do_draw s src) = Return (VInt k)) /\
    (exists s, fst (float64 (Some x) (Some x) st) = Return s /\
               forall src, fst (do_draw s src) = Return (VFloat x)).
Proof.
  intros k x st Hx.
  assert (Hint : forall full,
             exists s, fst (bounded_integer full (Some k) (Some k) st) = Return s /\
                       forall src, fst (do_draw s src) = Return (VInt k)).
  { intro full. unfold bounded_integer. rewrite Z.ltb_irrefl.
    eexists. split; [reflexivity |].
    intro src.
    destruct (@integers_in_range (next_uid st) k k src (Z.le_refl k))
      as (v & src' & Hv & Hrange).
    rewrite Hv. simpl. do 2 f_equal. lia. }
  split; [apply Hint |]. split; [apply Hint |].
  unfold float64. rewrite Hx.
  eexists. split; [reflexivity |]. intro src. reflexivity.
Qed.

Lemma equal_bounds_draw_the_bound_witness :
  PrimFloat.eqb 0 0 = true /\
  exists s, fst (uint32 (Some 0%Z) (Some 0%Z) initial) = Return s /\
            forall src, fst (do_draw s src) = Return (VInt 0).
Proof.
  split; [reflexivity |].
  exact (proj1 (proj2 (@equal_bounds_draw_the_bound 0%Z 0%float initial eq_refl))).
Defined.

(** C5.  An array generator built with [min_size == max_size == n] is
    built without error; every draw that returns yields a sequence of
    exactly [n] items, a draw raises only what a draw from the element
    generator raised, and every draw returns when the element generator
    always does.  With four elements fixed to the constant 0 every draw
    is [[0, 0, 0, 0]]. *)
Theorem equal_sizes_draw_that_length :
  forall (elements : strategy) (n : Z) (st : interp),
    (0 <= n)%Z ->
    (exists s, fst (array elements (Some n) (Some n) st) = Return s /\
       (forall src,
           match do_draw s src with
           | (Return v, _) => exists l, v = VList l /\ Z.of_nat (List.length l) = n
           | (Raise e, src') => exists src0, do_draw elements src0 = (Raise e, src')
           end) /\
       ((forall src, exists v src', do_draw elements src = (Return v, src')) ->
        forall src, exists l src',
            do_draw s src = (Return (VList l), src') /\ Z.of_nat (List.length l) = n)) /\
    (exists s, fst (four_zeros st) = Return s /\
       forall src, fst (do_draw s src) = Return (VList [VInt 0; VInt 0; VInt 0; VInt 0])).
Proof.
  intros elements n st Hn. split.
  - unfold array, size_bounds, bind, lift.
    replace (n <? 0)%Z with false by (symmetry; apply Z.ltb_ge; exact Hn).
    rewrite Z.ltb_irrefl. simpl.
    eexists. split; [reflexivity |].
    assert (Hshape : forall src,
               match do_draw (ListStrategy (next_uid st) elements (Z.to_nat n) (Z.to_nat n)) src with
               | (Return v, _) => exists l, v = VList l /\ Z.of_nat (List.length l) = n
               | (Raise e, src') => exists src0, do_draw elements src0 = (Raise e, src')
               end).
    { intro src.
      pose proof (@lists_draw (next_uid st) elements _ _ src (Nat.le_refl (Z.to_nat n))) as H.
      destruct (do_draw (ListStrategy (next_uid st) elements (Z.to_nat n) (Z.to_nat n)) src)
        as [[v | e] src'].
      - destruct H as (l & Hv & Hlen & _). exists l. split; [exact Hv | lia].
      - exact H. }
    split; [exact Hshape |].
    intros Htotal src. specialize (Hshape src).
    simpl in *. unfold bind at 1 in Hshape. unfold bind at 1.
    destruct (choice_returns src) as (k & src1 & Hk). rewrite Hk in *.
    unfold bind in *.
    destruct (@draw_many_returns _ _ (do_draw elements)
                (size_between (Z.to_nat n) (Z.to_nat n) k) Htotal src1) as (l & src2 & Hl).
    rewrite Hl in *. destruct Hshape as (l' & Hl' & Hlen). inversion Hl'; subst l'.
    exists l, src2. split; [reflexivity | exact Hlen].
  - exists (ListStrategy (S (next_uid st)) (JustStrategy (next_uid st) (VInt 0)) 4 4).
    split; [reflexivity |].
    intro src. rewrite lists_of_a_constant. reflexivity.
Qed.

Lemma equal_sizes_draw_that_length_witness :
  (0 <= 4)%Z /\
  exists s, fst (array (JustStrategy 0 (VInt 0)) (Some 4%Z) (Some 4%Z) initial) = Return s /\
    forall src, exists l src',
        do_draw s src = (Return (VList l), src') /\ Z.of_nat (List.length l) = 4%Z.
Proof.
  split; [lia |].
  destruct (@equal_sizes_draw_that_length (JustStrategy 0 (VInt 0)) 4 initial
              ltac:(lia)) as [(s & Hs & _ & Htotal) _].
  exists s. split; [exact Hs |].
  apply Htotal. intro src. exists (VInt 0), src. reflexivity.
Defined.

(** ** Calls and overrides *)

(** Without positional arguments every parameter is bound to the keyword
    argument of its name, or else to its default object. *)
Lemma bind_keywords (sig : signature) (kwargs : list (string * strategy)) :
  bind_parameters sig [] kwargs = Return (map (override kwargs) sig).
Proof.
  induction sig as [| [name default] sig IH]; simpl; [reflexivity |].
  rewrite IH. reflexivity.
Qed.

Lemma call_keywords (st : interp) (d : Def.t) (sig : signature)
    (kwargs : list (string * strategy)) :
  find_function d (functions st) = Some sig ->
  known_keywords sig kwargs = true ->
  call d [] kwargs st =
  (Return (CompositeStrategy (next_uid st) d (map (override kwargs) sig)),
   {| next_uid := S (next_uid st); functions := functions st |}).
Proof.
  intros Hd Hk. unfold call. rewrite Hd, Hk, bind_keywords. reflexivity.
Qed.

Lemma known_keyword (sig : signature) (f : string) (g : strategy) :
  In f (map fst sig) -> known_keywords sig [(f, g)] = true.
Proof.
  intro H. unfold known_keywords. simpl. rewrite andb_true_r.
  apply existsb_exists. apply in_map_iff in H. destruct H as (p & Hp & Hin).
  exists p. split; [exact Hin |]. simpl. rewrite Hp. apply String.eqb_refl.
Qed.

Lemma override_one (f : string) (g : strategy) (name : string) (default : strategy) :
  override [(f, g)] (name, default) = if String.eqb f name then g else default.
Proof. unfold override. simpl. destruct (String.eqb f name); reflexivity. Qed.

(** C8.  Calling a composite with an override for the field [f] binds
    [f] to the override and every other parameter to the very default
    object of the function's signature, the one the call without any
    override binds it to. *)
Theorem override_leaves_the_other_fields :
  forall (st : interp) (d : Def.t) (sig : signature) (f : string) (g : strategy),
    find_function d (functions st) = Some sig ->
    In f (map fst sig) ->
    exists overridden,
      fst (call d [] [(f, g)] st) = Return (CompositeStrategy (next_uid st) d overridden) /\
      fst (call d [] [] st) = Return (CompositeStrategy (next_uid st) d (map snd sig)) /\
      List.length overridden = List.length sig /\
      forall i name default,
        nth_error sig i = Some (name, default) ->
        (name <> f -> nth_error overridden i = Some default) /\
        (name = f -> nth_error overridden i = Some g).
Proof.
  intros st d sig f g Hd Hf.
  exists (map (override [(f, g)]) sig).
  rewrite (call_keywords st d [(f, g)] Hd (known_keyword sig f g Hf)).
  rewrite (call_keywords st d [] Hd eq_refl).
  split; [reflexivity |]. split.
  - reflexivity.
  - split; [apply length_map |].
    intros i name default Hi.
    rewrite nth_error_map, Hi. simpl. rewrite override_one.
    split; intro Hname.
    + destruct (String.eqb_spec f name) as [E | E]; [| reflexivity].
      exfalso. apply Hname. symmetry. exact E.
    + subst name. rewrite String.eqb_refl. reflexivity.
Qed.

Lemma override_leaves_the_other_fields_witness :
  find_function Def.point (functions loaded) = Some (signature_of Def.point) /\
  In "y" (map fst (signature_of Def.point)) /\
  fst (call Def.point [] [("y", JustStrategy 99 (VFloat 1))] loaded)
  = Return (CompositeStrategy 36 Def.point
              [FloatsStrategy 5 None None; JustStrategy 99 (VFloat 1);
               FloatsStrategy 7 None None]).
Proof.
  split; [reflexivity |]. split; [simpl; tauto |].
  destruct (@override_leaves_the_other_fields loaded Def.point (signature_of Def.point)
              "y" (JustStrategy 99 (VFloat 1)) eq_refl)
    as (overridden & Hcall & _ & Hlen & Hnth).
  - simpl; tauto.
  - rewrite Hcall. clear Hcall.
    destruct overridden as [| a [| b [| c [| ? ?]]]]; try discriminate Hlen.
    pose proof (Hnth 0%nat "x" (FloatsStrategy 5 None None) eq_refl) as [H0 _].
    pose proof (Hnth 1%nat "y" (FloatsStrategy 6 None None) eq_refl) as [_ H1].
    pose proof (Hnth 2%nat "z" (FloatsStrategy 7 None None) eq_refl) as [H2 _].
    specialize (H0 ltac:(discriminate)). specialize (H1 eq_refl).
    specialize (H2 ltac:(discriminate)).
    simpl in H0, H1, H2. inversion H0; inversion H1; inversion H2. reflexivity.
Defined.

(** ** Generators fixed to constants *)

Lemma pinned_composite (uid : nat) (d : Def.t) (args : list strategy) :
  pinned (CompositeStrategy uid d args) = forallb pinned args.
Proof.
  induction args as [| a args IH]; [reflexivity |].
  simpl. simpl in IH. rewrite IH. reflexivity.
Qed.

Lemma draw_all_outcome (gens : list strategy) :
  Forall constant_outcome gens ->
  forall src1 src2,
    fst (draw_all do_draw gens src1) = fst (draw_all do_draw gens src2).
Proof.
  induction 1 as [| g gens Hg _ IH]; intros src1 src2; simpl; [reflexivity |].
  unfold bind. specialize (Hg src1 src2).
  destruct (do_draw g src1) as [[v1 | e1] s1], (do_draw g src2) as [[v2 | e2] s2];
    simpl in Hg; try discriminate Hg; inversion Hg; subst; [| reflexivity].
  specialize (IH s1 s2).
  destruct (draw_all do_draw gens s1) as [[l1 | e1] t1],
           (draw_all do_draw gens s2) as [[l2 | e2] t2];
    simpl in IH; try discriminate IH; inversion IH; subst; reflexivity.
Qed.

Lemma composite_outcome (uid : nat) (d : Def.t) (args : list strategy) :
  Forall constant_outcome args -> constant_outcome (CompositeStrategy uid d args).
Proof.
  intros Hargs src1 src2.
  change (do_draw (CompositeStrategy uid d args)) with (apply_definition do_draw d args).
  destruct (Nat.eq_dec (List.length args) (List.length (checks d))) as [Hlen | Hlen].
  - rewrite !apply_definition_generic by exact Hlen.
    unfold generic_composite, bind, lift.
    pose proof (draw_all_outcome Hargs src1 src2) as H.
    destruct (draw_all do_draw args src1) as [[l1 | e1] t1],
             (draw_all do_draw args src2) as [[l2 | e2] t2];
      simpl in H; try discriminate H; inversion H; subst; reflexivity.
  - rewrite !apply_definition_arity by exact Hlen. reflexivity.
Qed.

(** A generator whose leaves are all fixed to constants has one outcome. *)
Lemma pinned_constant_outcome (s : strategy) :
  pinned s = true -> constant_outcome s.
Proof.
  induction s as [u v | u | u lo hi | u lo hi | u a lo hi | u e lo hi IH | u d args IH]
    using strategy_rect'; intro Hp; try discriminate Hp.
  - intros src1 src2. reflexivity.
  - simpl in Hp. apply Z.eqb_eq in Hp. subst hi.
    intros src1 src2.
    destruct (@integers_in_range u lo lo src1 (Z.le_refl lo)) as (v1 & t1 & H1 & R1).
    destruct (@integers_in_range u lo lo src2 (Z.le_refl lo)) as (v2 & t2 & H2 & R2).
    rewrite H1, H2. simpl. do 2 f_equal. lia.
  - simpl in Hp. apply andb_true_iff in Hp. destruct Hp as [Hsize He].
    apply Nat.eqb_eq in Hsize. subst hi. specialize (IH He).
    intros src1 src2. simpl. unfold bind at 1 3.
    destruct (choice_returns src1) as (k1 & t1 & H1).
    destruct (choice_returns src2) as (k2 & t2 & H2).
    rewrite H1, H2, !size_between_fixed. unfold bind.
    pose proof (@draw_many_outcome _ _ (do_draw e) lo IH t1 t2) as H.
    destruct (draw_many (do_draw e) lo t1) as [[l1 | e1] r1],
             (draw_many (do_draw e) lo t2) as [[l2 | e2] r2];
      simpl in H; try discriminate H; inversion H; subst; reflexivity.
  - rewrite pinned_composite in Hp. apply composite_outcome.
    rewrite forallb_forall in Hp. rewrite Forall_forall in *.
    intros g Hg. apply IH; [exact Hg | apply Hp; exact Hg].
Qed.

(** The field constructors with equal bounds build such generators. *)
Lemma equal_bounds_are_pinned (k : Z) (x : float) (elements : strategy) (n : Z)
    (st : interp) (s : strategy) :
  fst (uint8 (Some k) (Some k) st) = Return s \/
  fst (uint32 (Some k) (Some k) st) = Return s \/
  (PrimFloat.eqb x x = true /\ fst (float64 (Some x) (Some x) st) = Return s) \/
  (pinned elements = true /\ fst (array elements (Some n) (Some n) st) = Return s) ->
  pinned s = true.
Proof.
  intros [H | [H | [[Hx H] | [He H]]]].
  - unfold uint8, bounded_integer in H. rewrite Z.ltb_irrefl in H.
    injection H as H. subst s. simpl. apply Z.eqb_refl.
  - unfold uint32, bounded_integer in H. rewrite Z.ltb_irrefl in H.
    injection H as H. subst s. simpl. apply Z.eqb_refl.
  - unfold float64 in H. rewrite Hx in H. injection H as H. subst s. reflexivity.
  - unfold array, size_bounds, bind, lift in H.
    destruct (n <? 0)%Z; [discriminate H |].
    rewrite Z.ltb_irrefl in H. injection H as H. subst s.
    simpl. rewrite Nat.eqb_refl. exact He.
Qed.

(** ** The header of the tests *)

(** C4.  The header generator built with [seq] fixed to 0, [stamp] fixed
    to the time (1, 2) and [frame_id] fixed to ['some_tf_frame_name'] is
    built without error, and every draw returns the header record
    (0, (1, 2), 'some_tf_frame_name'), which equals that plain tuple. *)
Theorem customized_header_draws_the_constants :
  forall (n : nat),
  exists s,
    fst (customized_header (at_uid n)) = Return s /\
    forall src,
      fst (do_draw s src)
      = Return (VTuple (Some _Header)
                  [VInt 0; VTuple (Some _Time) [VInt 1; VInt 2];
                   VStr "some_tf_frame_name"]) /\
      plain (VTuple (Some _Header)
               [VInt 0; VTuple (Some _Time) [VInt 1; VInt 2];
                VStr "some_tf_frame_name"])
      = VTuple None [VInt 0; VTuple None [VInt 1; VInt 2]; VStr "some_tf_frame_name"].
Proof.
  intro n. eexists. split; [reflexivity |].
  intro src. split; [| reflexivity].
  match goal with
  | |- fst (do_draw ?s src) = _ =>
      rewrite (@pinned_constant_outcome s eq_refl src [])
  end.
  reflexivity.
Qed.

(** ** The default generators *)

Lemma well_typed_any (s : strategy) (c : option pytype) :
  well_typed s c -> well_typed s None.
Proof.
  intros H src. destruct (H src) as (v & src' & Hv & _).
  exists v, src'. split; [exact Hv | reflexivity].
Qed.

Lemma floats_well_typed (uid : nat) (lo hi : option float) :
  well_typed (FloatsStrategy uid lo hi) (Some py_float).
Proof.
  intro src. destruct (floats_draw_a_float uid lo hi src) as (x & src' & H).
  exists (VFloat x), src'. split; [exact H | reflexivity].
Qed.

Lemma integers_well_typed (uid : nat) (lo hi : Z) :
  (lo <= hi)%Z -> well_typed (IntegersStrategy uid lo hi) (Some py_int).
Proof.
  intros Hle src. destruct (@integers_in_range uid lo hi src Hle) as (v & src' & H & _).
  exists (VInt v), src'. split; [exact H | reflexivity].
Qed.

Lemma text_well_typed (uid : nat) (a : option string) (lo hi : nat) :
  well_typed (TextStrategy uid a lo hi) (Some py_str).
Proof.
  intro src. destruct (text_draws_a_string uid a lo hi src) as (x & src' & H).
  exists (VStr x), src'. split; [exact H | reflexivity].
Qed.

(** A list of one size over elements that always return. *)
Lemma fixed_size_list_returns (uid : nat) (elements : strategy) (n : nat) :
  well_typed elements None ->
  forall src, exists l src',
      do_draw (ListStrategy uid elements n n) src = (Return (VList l), src') /\
      List.length l = n.
Proof.
  intros He src. simpl. unfold bind at 1.
  destruct (choice_returns src) as (k & src1 & Hk). rewrite Hk.
  rewrite size_between_fixed. unfold bind.
  destruct (@draw_many_returns _ _ (do_draw elements) n) with (st := src1)
    as (l & src2 & Hl).
  - intro st. destruct (He st) as (v & st' & Hv & _). exists v, st'. exact Hv.
  - rewrite Hl. exists l, src2. split; [reflexivity |].
    eapply draw_many_length. exact Hl.
Qed.

Lemma lists_well_typed (uid : nat) (elements : strategy) (lo hi : nat) :
  well_typed elements None -> well_typed (ListStrategy uid elements lo hi) (Some py_list).
Proof.
  intros He src. simpl. unfold bind at 1.
  destruct (choice_returns src) as (k & src1 & Hk). rewrite Hk. unfold bind.
  destruct (@draw_many_returns _ _ (do_draw elements) (size_between lo hi k))
    with (st := src1) as (l & src2 & Hl).
  - intro st. destruct (He st) as (v & st' & Hv & _). exists v, st'. exact Hv.
  - rewrite Hl. exists (VList l), src2. split; reflexivity.
Qed.

Lemma draw_all_well_typed (gens : list strategy) (cs : list (option pytype)) :
  Forall2 well_typed gens cs ->
  forall src, exists vs src',
      draw_all do_draw gens src = (Return vs, src') /\
      forallb (fun p => accepts (fst p) (snd p)) (combine cs vs) = true.
Proof.
  induction 1 as [| g c gens cs Hg _ IH]; intro src; simpl.
  - exists [], src. split; reflexivity.
  - unfold bind. destruct (Hg src) as (v & src1 & Hv & Hacc). rewrite Hv.
    destruct (IH src1) as (vs & src2 & Hvs & Haccs). rewrite Hvs.
    exists (v :: vs), src2. split; [reflexivity |].
    simpl. rewrite Hacc, Haccs. reflexivity.
Qed.

Lemma record_class_eqb (d : Def.t) : class_eqb (record_class d) (record_class d) = true.
Proof. destruct d; reflexivity. Qed.

(** A composite over generators that pass its checks always returns its
    record. *)
Lemma composite_well_typed (uid : nat) (d : Def.t) (args : list strategy) :
  Forall2 well_typed args (checks d) ->
  well_typed (CompositeStrategy uid d args) (Some (py_class (record_class d))).
Proof.
  intros Hargs src.
  change (do_draw (CompositeStrategy uid d args)) with (apply_definition do_draw d args).
  rewrite apply_definition_generic by (eapply Forall2_length; exact Hargs).
  unfold generic_composite, bind, lift.
  destruct (draw_all_well_typed Hargs src) as (vs & src' & Hvs & Hacc). rewrite Hvs.
  rewrite assemble_accepted.
  - eexists _, _. split; [reflexivity |]. simpl. apply record_class_eqb.
  - rewrite (draw_all_length _ _ _ Hvs). eapply Forall2_length. exact Hargs.
  - exact Hacc.
Qed.

Ltac typed_fields :=
  repeat first
    [ apply Forall2_nil
    | apply Forall2_cons
    | apply floats_well_typed
    | apply text_well_typed
    | apply integers_well_typed; discriminate
    | apply lists_well_typed
    | eapply well_typed_any; apply floats_well_typed
    | eapply well_typed_any; apply text_well_typed ].

(** The default generator of every definition, as [def] left it in the
    signatures, always returns a record of the definition. *)
Lemma default_composite_well_typed (uid : nat) (d : Def.t) :
  well_typed (CompositeStrategy uid d (map snd (signature_of d)))
             (Some (py_class (record_class d))).
Proof.
  assert (Htime : forall u, well_typed (CompositeStrategy u Def.time
                                          (map snd (signature_of Def.time)))
                                       (Some (py_class _Time))).
  { intro u. apply (composite_well_typed u Def.time). simpl. typed_fields. }
  assert (Hheader : forall u, well_typed (CompositeStrategy u Def.header
                                            (map snd (signature_of Def.header)))
                                         (Some (py_class _Header))).
  { intro u. apply (composite_well_typed u Def.header). simpl. typed_fields.
    apply Htime. }
  assert (Hpoint : forall u, well_typed (CompositeStrategy u Def.point
                                           (map snd (signature_of Def.point)))
                                        (Some (py_class _Point))).
  { intro u. apply (composite_well_typed u Def.point). simpl. typed_fields. }
  assert (Hquaternion : forall u, well_typed (CompositeStrategy u Def.quaternion
                                                (map snd (signature_of Def.quaternion)))
                                             (Some (py_class _Quaternion))).
  { intro u. apply (composite_well_typed u Def.quaternion). simpl. typed_fields. }
  assert (Hvector3 : forall u, well_typed (CompositeStrategy u Def.vector3
                                             (map snd (signature_of Def.vector3)))
                                          (Some (py_class _Vector3))).
  { intro u. apply (composite_well_typed u Def.vector3). simpl. typed_fields. }
  assert (Hpose : forall u, well_typed (CompositeStrategy u Def.pose
                                          (map snd (signature_of Def.pose)))
                                       (Some (py_class _Pose))).
  { intro u. apply (composite_well_typed u Def.pose). simpl. typed_fields.
    - apply Hpoint.
    - apply Hquaternion. }
  assert (Htransform : forall u, well_typed (CompositeStrategy u Def.transform
                                               (map snd (signature_of Def.transform)))
                                            (Some (py_class _Transform))).
  { intro u. apply (composite_well_typed u Def.transform). simpl. typed_fields.
    - apply Hvector3.
    - apply Hquaternion. }
  assert (Hpwc : forall u, well_typed (CompositeStrategy u Def.pose_with_covariance
                                         (map snd (signature_of Def.pose_with_covariance)))
                                      (Some (py_class _PoseWithCovariance))).
  { intro u. apply (composite_well_typed u Def.pose_with_covariance). simpl. typed_fields.
    - eapply well_typed_any. apply Hpose.
    - eapply well_typed_any. apply lists_well_typed.
      eapply well_typed_any. apply floats_well_typed. }
  destruct d.
  - apply Htime.
  - apply Hheader.
  - apply Hpoint.
  - apply Hquaternion.
  - apply Hpose.
  - apply Hpwc.
  - apply (composite_well_typed uid Def.pose_with_covariance_stamped). simpl. typed_fields.
    + eapply well_typed_any. apply Hheader.
    + eapply well_typed_any. apply Hpwc.
  - apply Hvector3.
  - apply Htransform.
  - apply (composite_well_typed uid Def.transform_stamped). simpl. typed_fields.
    + apply Hheader.
    + apply Htransform.
  - apply (composite_well_typed uid Def.log). simpl. typed_fields.
    eapply well_typed_any. apply Hheader.
Qed.

(** ** The covariance of [pose_with_covariance] *)

Lemma pose_with_covariance_draw (uid : nat) (covariance : strategy) (n : nat) :
  well_typed covariance None ->
  (forall src v src', do_draw covariance src = (Return v, src') ->
                      exists l, v = VList l /\ List.length l = n) ->
  forall src, exists p l src',
      do_draw (CompositeStrategy uid Def.pose_with_covariance
                 [CompositeStrategy 14 Def.pose (map snd (signature_of Def.pose));
                  covariance]) src
      = (Return (VTuple (Some _PoseWithCovariance) [p; VList l]), src') /\
      List.length l = n.
Proof.
  intros Htotal Hshape src.
  change (do_draw (CompositeStrategy uid Def.pose_with_covariance
                     [CompositeStrategy 14 Def.pose (map snd (signature_of Def.pose));
                      covariance]) src)
    with (pose_with_covariance do_draw
            (CompositeStrategy 14 Def.pose (map snd (signature_of Def.pose)))
            covariance src).
  unfold pose_with_covariance, bind.
  destruct (default_composite_well_typed 14 Def.pose src) as (p & src1 & Hp & _).
  rewrite Hp.
  destruct (Htotal src1) as (v & src2 & Hv & _). rewrite Hv.
  destruct (Hshape _ _ _ Hv) as (l & Hl & Hlen). subst v.
  exists p, l, src2. split; [reflexivity | exact Hlen].
Qed.

Lemma fixed_size_list_shape (uid u : nat) (lo hi : option float) (n : nat) :
  well_typed (ListStrategy uid (FloatsStrategy u lo hi) n n) None /\
  forall src v src',
    do_draw (ListStrategy uid (FloatsStrategy u lo hi) n n) src = (Return v, src') ->
    exists l, v = VList l /\ List.length l = n.
Proof.
  assert (He : well_typed (FloatsStrategy u lo hi) None)
    by (eapply well_typed_any; apply floats_well_typed).
  split.
  - eapply well_typed_any. apply lists_well_typed. exact He.
  - intros src v src' Hv.
    destruct (fixed_size_list_returns uid n He src) as (l & src2 & Hl & Hlen).
    rewrite Hl in Hv. injection Hv as Hv _. exists l. split; [symmetry; exact Hv | exact Hlen].
Qed.

(** C9.  The default covariance generator of [pose_with_covariance] has
    both size bounds at 36, and every draw from the default composite
    returns a record whose covariance has 36 items.  Nothing checks the
    count of an override: with a covariance generator of two elements
    every draw still returns the record, with a covariance of two items. *)
Theorem covariance_count_is_only_a_default :
  (exists pose_default uid elements,
      signature_of Def.pose_with_covariance
      = [("pose", pose_default); ("covariance", ListStrategy uid elements 36 36)]) /\
  (forall n src, exists s p l src',
      fst (call Def.pose_with_covariance [] [] (at_uid n)) = Return s /\
      do_draw s src = (Return (VTuple (Some _PoseWithCovariance) [p; VList l]), src') /\
      List.length l = 36%nat) /\
  (forall n src, exists s p l src',
      fst (short_covariance (at_uid n)) = Return s /\
      do_draw s src = (Return (VTuple (Some _PoseWithCovariance) [p; VList l]), src') /\
      List.length l = 2%nat).
Proof.
  split; [| split].
  - eexists _, _, _. reflexivity.
  - intros n src.
    destruct (fixed_size_list_shape 16 15 None None 36) as [Htotal Hshape].
    destruct (pose_with_covariance_draw n Htotal Hshape src) as (p & l & src' & H & Hlen).
    eexists _, p, l, src'. split; [reflexivity |]. split; [exact H | exact Hlen].
  - intros n src.
    destruct (fixed_size_list_shape (S n) n None None 2) as [Htotal Hshape].
    destruct (pose_with_covariance_draw (S (S n)) Htotal Hshape src)
      as (p & l & src' & H & Hlen).
    eexists _, p, l, src'. split; [reflexivity |]. split; [exact H | exact Hlen].
Qed.

(** ** Fields without a check, and what a failed check raises *)

Lemma just_well_typed_any (uid : nat) (v : pyval) : well_typed (JustStrategy uid v) None.
Proof. intro src. exists v, src. split; reflexivity. Qed.

(** Item [i] of a record drawn from a composite was drawn from its [i]-th
    generator. *)
Lemma composite_item (uid : nat) (d : Def.t) (gens : list strategy) (i : nat)
    (g : strategy) (src src' : source) (v : pyval) :
  do_draw (CompositeStrategy uid d gens) src = (Return v, src') ->
  nth_error gens i = Some g ->
  exists sti c sti', do_draw g sti = (Return c, sti') /\ nth_error (items_of v) i = Some c.
Proof.
  intros Hv Hg.
  change (do_draw (CompositeStrategy uid d gens)) with (apply_definition do_draw d gens) in Hv.
  destruct (Nat.eq_dec (List.length gens) (List.length (checks d))) as [Hlen | Hlen].
  - rewrite apply_definition_generic in Hv by exact Hlen.
    unfold generic_composite, bind, lift in Hv.
    destruct (draw_all do_draw gens src) as [[vs | e] src1] eqn:E; [| discriminate Hv].
    injection Hv as Hv _. apply assemble_returns in Hv. destruct Hv as [Hv _]. subst v.
    destruct (@draw_all_nth _ do_draw _ _ _ _ _ _ E Hg) as (sti & c & sti' & Hc & Hnth).
    exists sti, c, sti'. split; [exact Hc | exact Hnth].
  - rewrite apply_definition_arity in Hv by exact Hlen. discriminate Hv.
Qed.

(** Where a body checks a field, it checks it against the declared type
    of the field. *)
Lemma checks_follow_declared_types (d : Def.t) :
  Forall2 (fun c t => c = None \/ c = Some t) (checks d) (declared_types d).
Proof.
  destruct d; simpl; repeat first [apply Forall2_cons | apply Forall2_nil]; auto.
Qed.

(** C2 (the code departs from the claim).  Five fields of the source
    definitions have no check.  [pose_with_covariance(pose=just(0))] and
    [log(header=just(0))] are built without error and every draw returns a
    record whose first item is the integer 0, which is neither a [_Pose]
    nor a [_Header]. *)
Theorem some_fields_are_never_checked :
  map (fun d => (d, unchecked_fields d)) source_definitions
  = [(Def.point, []); (Def.quaternion, []); (Def.pose, []);
     (Def.pose_with_covariance, ["pose"; "covariance"]);
     (Def.pose_with_covariance_stamped, ["header"; "pose"]);
     (Def.vector3, []); (Def.transform, []); (Def.transform_stamped, []);
     (Def.log, ["header"])] /\
  nth_error (declared_types Def.pose_with_covariance) 0 = Some (py_class _Pose) /\
  nth_error (declared_types Def.log) 0 = Some (py_class _Header) /\
  isinstance (VInt 0) (py_class _Pose) = false /\
  isinstance (VInt 0) (py_class _Header) = false /\
  (exists s, fst (pose_with_covariance_of_an_int loaded) = Return s /\
     forall src, exists v src',
         do_draw s src = (Return v, src') /\
         isinstance v (py_class _PoseWithCovariance) = true /\
         nth_error (items_of v) 0 = Some (VInt 0)) /\
  (exists s, fst (log_of_an_int loaded) = Return s /\
     forall src, exists v src',
         do_draw s src = (Return v, src') /\
         isinstance v (py_class _Log) = true /\
         nth_error (items_of v) 0 = Some (VInt 0)).
Proof.
  split; [reflexivity |]. split; [reflexivity |]. split; [reflexivity |].
  split; [reflexivity |]. split; [reflexivity |].
  split.
  - eexists. split; [vm_compute; reflexivity |]. intro src.
    match goal with
    | |- exists v src', do_draw (CompositeStrategy ?u ?d ?gens) src = _ /\ _ =>
        assert (Ht : well_typed (CompositeStrategy u d gens)
                                (Some (py_class (record_class d))))
    end.
    { apply composite_well_typed. simpl. typed_fields.
      - apply just_well_typed_any.
      - eapply well_typed_any. apply lists_well_typed.
        eapply well_typed_any. apply floats_well_typed. }
    destruct (Ht src) as (v & src' & Hv & Hacc).
    exists v, src'. split; [exact Hv |]. split; [exact Hacc |].
    destruct (@composite_item _ _ _ 0 _ _ _ _ Hv eq_refl) as (sti & c & sti' & Hc & Hnth).
    simpl in Hc. injection Hc as Hc _. subst c. exact Hnth.
  - eexists. split; [vm_compute; reflexivity |]. intro src.
    match goal with
    | |- exists v src', do_draw (CompositeStrategy ?u ?d ?gens) src = _ /\ _ =>
        assert (Ht : well_typed (CompositeStrategy u d gens)
                                (Some (py_class (record_class d))))
    end.
    { apply composite_well_typed. simpl. typed_fields. apply just_well_typed_any. }
    destruct (Ht src) as (v & src' & Hv & Hacc).
    exists v, src'. split; [exact Hv |]. split; [exact Hacc |].
    destruct (@composite_item _ _ _ 0 _ _ _ _ Hv eq_refl) as (sti & c & sti' & Hc & Hnth).
    simpl in Hc. injection Hc as Hc _. subst c. exact Hnth.
Qed.

(** A failed check in a source definition never raises [AssertionError]:
    building the message raises [KeyError] first. *)
Lemma source_checks_raise_KeyError (d : Def.t) (gens : list strategy) (vs : list pyval)
    (e : exn) :
  In d source_definitions ->
  assemble d gens vs = Raise e ->
  (exists key, e = KeyError key) \/ (exists msg, e = TypeError msg).
Proof.
  intros Hd He. unfold assemble in He.
  destruct (first_rejection d (_fields (record_class d)) (checks d) gens vs) as [e' |] eqn:E.
  - injection He as He. subst e'. left.
    assert (Hgen : forall fields cs gens vs,
               first_rejection d fields cs gens vs = Some e -> exists key, e = KeyError key).
    { clear E. induction fields as [| f fields IH]; intros cs gens0 vs0 H; [discriminate H |].
      destruct cs as [| c cs]; [discriminate H |].
      destruct gens0 as [| g gens0]; [discriminate H |].
      destruct vs0 as [| v vs0]; [discriminate H |].
      simpl in H. destruct (accepts c v).
      - eapply IH. exact H.
      - destruct c as [t |]; [| discriminate H].
        injection H as H. subst e.
        simpl in Hd.
        repeat (destruct Hd as [Hd | Hd]; [subst d; eexists; reflexivity |]).
        contradiction Hd. }
    eapply Hgen. exact E.
  - right. unfold new in He. destruct (Nat.eqb _ _); [discriminate He |].
    injection He as He. subst e. eexists. reflexivity.
Qed.

(** C3 (the code departs from the claim).  [point(x=just(1))] is built
    without error and every draw halts, but with [KeyError('x_value')]
    raised while the message of the failed assertion is being formatted:
    the caller gets no [AssertionError], and neither the value drawn nor
    the generator. *)
Theorem failed_check_raises_KeyError :
  exists s, fst (point_of_an_int loaded) = Return s /\
            forall src, fst (do_draw s src) = Raise (KeyError "x_value").
Proof.
  eexists. split; [vm_compute; reflexivity |]. intro src.
  match goal with
  | |- fst (do_draw (CompositeStrategy ?u Def.point [?x; ?y; ?z]) src) = _ =>
      change (do_draw (CompositeStrategy u Def.point [x; y; z]) src)
        with (point do_draw x y z src);
      unfold point, bind;
      change (do_draw x src) with (@Return pyval (VInt 1), src);
      destruct (floats_draw_a_float 6 None None src) as (yv & src1 & Hy);
      destruct (floats_draw_a_float 7 None None src1) as (zv & src2 & Hz)
  end.
  rewrite Hy, Hz. reflexivity.
Qed.

(** ** Overriding a nested field with constants *)

Lemma just_well_typed (uid : nat) (v : pyval) (c : option pytype) :
  accepts c v = true -> well_typed (JustStrategy uid v) c.
Proof. intros H src. exists v, src. split; [reflexivity | exact H]. Qed.

(** C7.  Overriding the field [f] of a composite (the [i]-th parameter)
    with a generator all of whose leaves are fixed to constants: the
    override has one outcome on every draw, and every record the composite
    draws holds that one value at position [i].  When the generators the
    call binds (the override and the defaults of the other fields) always
    draw values that pass the checks, every draw does return a record, and
    the record holds one and the same value at position [i]. *)
Theorem nested_override_is_deterministic :
  forall (st : interp) (d : Def.t) (sig : signature) (i : nat) (f : string)
         (default g : strategy),
    find_function d (functions st) = Some sig ->
    nth_error sig i = Some (f, default) ->
    pinned g = true ->
    exists s o,
      fst (call d [] [(f, g)] st) = Return s /\
      (forall src, fst (do_draw g src) = o) /\
      (forall src v, fst (do_draw s src) = Return v ->
                     exists c, o = Return c /\ nth_error (items_of v) i = Some c) /\
      (Forall2 well_typed (map (override [(f, g)]) sig) (checks d) ->
       exists c, o = Return c /\
                 forall src, exists v src',
                     do_draw s src = (Return v, src') /\
                     nth_error (items_of v) i = Some c).
Proof.
  intros st d sig i f default g Hd Hi Hp.
  assert (Hf : In f (map fst sig)).
  { apply in_map_iff. exists (f, default). split; [reflexivity |].
    eapply nth_error_In; exact Hi. }
  exists (CompositeStrategy (next_uid st) d (map (override [(f, g)]) sig)),
         (fst (do_draw g [])).
  rewrite (call_keywords st d [(f, g)] Hd (known_keyword sig f g Hf)).
  assert (Hg : nth_error (map (override [(f, g)]) sig) i = Some g).
  { rewrite nth_error_map, Hi. simpl. rewrite override_one, String.eqb_refl.
    reflexivity. }
  assert (Hheld : forall src v src',
             do_draw (CompositeStrategy (next_uid st) d (map (override [(f, g)]) sig)) src
             = (Return v, src') ->
             exists c, fst (do_draw g []) = Return c /\ nth_error (items_of v) i = Some c).
  { intros src v src' Hv.
    destruct (@composite_item _ _ _ i g _ _ _ Hv Hg) as (sti & c & sti' & Hc & Hnth).
    exists c. split; [| exact Hnth].
    rewrite (pinned_constant_outcome g Hp [] sti), Hc. reflexivity. }
  split; [reflexivity |]. split; [| split].
  - intro src. apply pinned_constant_outcome. exact Hp.
  - intros src v Hv.
    destruct (do_draw (CompositeStrategy (next_uid st) d (map (override [(f, g)]) sig)) src)
      as [o' src'] eqn:E.
    simpl in Hv. subst o'. eapply Hheld. exact E.
  - intro Htyped.
    pose proof (composite_well_typed (next_uid st) d Htyped) as Hreturns.
    destruct (Hreturns []) as (v0 & src0 & Hv0 & _).
    destruct (Hheld _ _ _ Hv0) as (c & Hc & _).
    exists c. split; [exact Hc |].
    intro src. destruct (Hreturns src) as (v & src' & Hv & _).
    exists v, src'. split; [exact Hv |].
    destruct (Hheld _ _ _ Hv) as (c' & Hc' & Hnth).
    rewrite Hc in Hc'. injection Hc' as Hc'. subst c'. exact Hnth.
Qed.

Lemma nested_override_is_deterministic_witness :
  find_function Def.pose (functions loaded) = Some (signature_of Def.pose) /\
  pinned (CompositeStrategy 40 Def.point
            [JustStrategy 37 (VFloat 0); JustStrategy 38 (VFloat 0);
             JustStrategy 39 (VFloat 0)]) = true /\
  exists s,
    fst (call Def.pose []
           [("position",
             CompositeStrategy 40 Def.point
               [JustStrategy 37 (VFloat 0); JustStrategy 38 (VFloat 0);
                JustStrategy 39 (VFloat 0)])] loaded) = Return s /\
    forall src, exists v src',
        do_draw s src = (Return v, src') /\
        nth_error (items_of v) 0
        = Some (VTuple (Some _Point) [VFloat 0; VFloat 0; VFloat 0]).
Proof.
  split; [reflexivity |]. split; [reflexivity |].
  destruct (@nested_override_is_deterministic loaded Def.pose (signature_of Def.pose) 0
              "position"
              (CompositeStrategy 12 Def.point
                 [FloatsStrategy 5 None None; FloatsStrategy 6 None None;
                  FloatsStrategy 7 None None])
              (CompositeStrategy 40 Def.point
                 [JustStrategy 37 (VFloat 0); JustStrategy 38 (VFloat 0);
                  JustStrategy 39 (VFloat 0)])
              eq_refl eq_refl eq_refl)
    as (s & o & Hs & Ho & _ & Hproduced).
  exists s. split; [exact Hs |].
  destruct Hproduced as (c & Hc & Hall).
  - simpl. apply Forall2_cons; [| apply Forall2_cons; [| apply Forall2_nil]].
    + apply (composite_well_typed 40 Def.point). simpl.
      repeat first [apply Forall2_nil | apply Forall2_cons
                   | apply just_well_typed; reflexivity].
    + apply (default_composite_well_typed 13 Def.quaternion).
  - rewrite <- (Ho []) in Hc. simpl in Hc. injection Hc as Hc. subst c. exact Hall.
Defined.

(** ** Default generators: built by [def], shared by the calls *)

Section Frame.
Variables St V : Type.
Variable view : St -> V.
Variable draw : strategy -> M St pyval.
Hypothesis draw_keeps_view : forall g st, view (snd (draw g st)) = view st.

Lemma draw_all_keeps_view (gens : list strategy) :
  forall st, view (snd (draw_all draw gens st)) = view st.
Proof.
  induction gens as [| g gens IH]; intro st; simpl; [reflexivity |].
  unfold bind. pose proof (draw_keeps_view g st) as Hg.
  destruct (draw g st) as [[v | e] st1]; simpl in Hg; [| exact Hg].
  pose proof (IH st1) as Hrest.
  destruct (draw_all draw gens st1) as [[vs | e] st2]; simpl in *; congruence.
Qed.

(** What a definition does to the state is what its draws do to it. *)
Lemma apply_definition_keeps_view (d : Def.t) (args : list strategy) (st : St) :
  view (snd (apply_definition draw d args st)) = view st.
Proof.
  destruct (Nat.eq_dec (List.length args) (List.length (checks d))) as [Hlen | Hlen].
  - rewrite apply_definition_generic by exact Hlen.
    unfold generic_composite, bind, lift.
    pose proof (draw_all_keeps_view args st) as H.
    destruct (draw_all draw args st) as [[vs | e] st1]; exact H.
  - rewrite apply_definition_arity by exact Hlen. reflexivity.
Qed.

End Frame.

Lemma call_at_uid (d : Def.t) (n : nat) (kwargs : list (string * strategy)) :
  known_keywords (signature_of d) kwargs = true ->
  call d [] kwargs (at_uid n) =
  (Return (CompositeStrategy n d (map (override kwargs) (signature_of d))),
   at_uid (S n)).
Proof.
  intro Hk. apply (call_keywords (at_uid n) d kwargs); [| exact Hk].
  destruct d; reflexivity.
Qed.

(** C10.  Importing the package evaluates the default expressions of the
    signatures once: it creates 36 objects, among them the 34 defaults,
    which are pairwise distinct objects.  Whenever and however often a
    composite is called afterwards, every parameter that is not overridden
    is bound to the default object of the signature, and the call leaves
    the signatures as they were.  A draw changes nothing but the state of
    the engine: whatever part of the state the engine's [draw] leaves
    alone, every definition leaves alone. *)
Theorem defaults_are_built_once_and_shared :
  import_package initial = (Return tt, loaded) /\
  next_uid loaded = 36%nat /\
  List.length (default_objects loaded) = 34%nat /\
  NoDup (map uid_of (default_objects loaded)) /\
  (forall d n kwargs,
      known_keywords (signature_of d) kwargs = true ->
      call d [] kwargs (at_uid n)
      = (Return (CompositeStrategy n d (map (override kwargs) (signature_of d))),
         at_uid (S n))) /\
  (forall d n,
      fst (call d [] [] (at_uid n))
      = Return (CompositeStrategy n d (map snd (signature_of d)))) /\
  (forall (St V : Type) (view : St -> V) (draw : strategy -> M St pyval),
      (forall g st, view (snd (draw g st)) = view st) ->
      forall d args st, view (snd (apply_definition draw d args st)) = view st).
Proof.
  split; [vm_compute; reflexivity |].
  split; [reflexivity |].
  split; [reflexivity |].
  split.
  - vm_compute.
    repeat (constructor;
            [intro H; simpl in H;
             repeat (destruct H as [H | H]; [discriminate H |]); exact H |]).
    constructor.
  - split; [exact call_at_uid |]. split.
    + intros d n. rewrite call_at_uid by reflexivity. reflexivity.
    + intros St V view draw Hdraw d args st.
      apply apply_definition_keeps_view. exact Hdraw.
Qed.

Lemma defaults_are_built_once_and_shared_witness :
  (forall (g : strategy) (st : interp * source),
      fst (snd (let r := do_draw g (snd st) in (fst r, (fst st, snd r)))) = fst st) /\
  fst (snd (apply_definition
              (fun g st => let r := do_draw g (snd st) in (fst r, (fst st, snd r)))
              Def.point (map snd (signature_of Def.point)) (loaded, [3; 1; 4]%nat)))
  = loaded.
Proof.
  split; [reflexivity |].
  exact (proj2 (proj2 (proj2 (proj2 (proj2 (proj2 defaults_are_built_once_and_shared)))))
           (interp * source)%type interp fst
           (fun g st => let r := do_draw g (snd st) in (fst r, (fst st, snd r)))
           (fun g st => eq_refl)
           Def.point (map snd (signature_of Def.point)) (loaded, [3; 1; 4]%nat)).
Defined.

(* ================================================================= *)
(** * Further properties of the definitions *)

(** ** What a draw can raise, and what a returned record guarantees *)

Lemma draw_all_raises (gens : list strategy) :
  forall src e src',
    draw_all do_draw gens src = (Raise e, src') ->
    exists i g src0, nth_error gens i = Some g /\ do_draw g src0 = (Raise e, src').
Proof.
  induction gens as [| g0 gens IH]; intros src e src' H; simpl in H; [discriminate H |].
  unfold bind in H.
  destruct (do_draw g0 src) as [[v | e0] src1] eqn:E0.
  - destruct (draw_all do_draw gens src1) as [[vs | e1] src2] eqn:E; [discriminate H |].
    injection H as He Hs. subst e1 src2.
    destruct (IH _ _ _ E) as (i & g & s0 & Hi & Hg).
    exists (S i), g, s0. split; [exact Hi | exact Hg].
  - injection H as He Hs. subst e0 src1.
    exists 0%nat, g0, src. split; [reflexivity | exact E0].
Qed.

(** The rejection reported is that of the first field, in field order,
    whose value fails its check. *)
Lemma first_rejection_first (d : Def.t) (fields : list string) :
  forall cs gens vs e,
    first_rejection d fields cs gens vs = Some e ->
    exists i f t g v,
      nth_error fields i = Some f /\ nth_error cs i = Some (Some t) /\
      nth_error gens i = Some g /\ nth_error vs i = Some v /\
      isinstance v t = false /\ e = check_failure d f t v g /\
      forall j c x, (j < i)%nat -> nth_error cs j = Some c -> nth_error vs j = Some x ->
                    accepts c x = true.
Proof.
  induction fields as [| f fields IH]; intros cs gens vs e H; [discriminate H |].
  destruct cs as [| c cs]; [discriminate H |].
  destruct gens as [| g gens]; [discriminate H |].
  destruct vs as [| v vs]; [discriminate H |].
  simpl in H. destruct (accepts c v) eqn:Hacc.
  - destruct (IH _ _ _ _ H) as (i & f' & t & g' & v' & Hf & Hc & Hg & Hv & Hrej & He & Hbefore).
    exists (S i), f', t, g', v'. repeat (split; [assumption |]).
    intros j c0 x Hj Hc0 Hx. destruct j as [| j].
    + simpl in Hc0, Hx. injection Hc0 as Hc0. injection Hx as Hx. subst c0 x. exact Hacc.
    + simpl in Hc0, Hx. apply (Hbefore j c0 x); [lia | exact Hc0 | exact Hx].
  - destruct c as [t |]; [| discriminate H].
    injection H as H. exists 0%nat, f, t, g, v.
    repeat (split; [first [reflexivity | exact Hacc | symmetry; exact H] |]).
    intros j c0 x Hj. lia.
Qed.

Lemma first_rejection_none (d : Def.t) (fields : list string) :
  forall cs gens vs,
    first_rejection d fields cs gens vs = None ->
    List.length fields = List.length cs ->
    List.length gens = List.length cs ->
    forall i c x, nth_error cs i = Some c -> nth_error vs i = Some x -> accepts c x = true.
Proof.
  induction fields as [| f fields IH]; intros cs gens vs H Hf Hg i c x Hc Hx.
  - destruct cs; [destruct i; discriminate Hc | discriminate Hf].
  - destruct cs as [| c0 cs]; [discriminate Hf |].
    destruct gens as [| g gens]; [discriminate Hg |].
    destruct vs as [| v vs]; [destruct i; discriminate Hx |].
    simpl in H. destruct (accepts c0 v) eqn:Hacc.
    + destruct i as [| i]; simpl in Hc, Hx.
      * injection Hc as Hc. injection Hx as Hx. subst c x. exact Hacc.
      * simpl in Hf, Hg.
        apply (IH cs gens vs H ltac:(lia) ltac:(lia) i c x Hc Hx).
    + destruct c0 as [t |]; [discriminate H | discriminate Hacc].
Qed.

Lemma source_check_failure (d : Def.t) (f : string) (t : pytype) (v : pyval)
    (g : strategy) :
  In d source_definitions -> check_failure d f t v g = KeyError (f ++ "_value").
Proof.
  intro Hd. simpl in Hd.
  repeat (destruct Hd as [Hd | Hd]; [subst d; reflexivity |]).
  contradiction Hd.
Qed.

Lemma fields_and_checks (d : Def.t) :
  List.length (_fields (record_class d)) = List.length (checks d).
Proof. destruct d; reflexivity. Qed.

(** X1.  A draw from a definition of the two modules raises in two ways
    only.  Either a field generator raised, and the composite raises the
    same exception from the same engine state.  Or every field was drawn
    and a checked field was rejected: the exception is then
    [KeyError(field + '_value')] for the first rejected field in field
    order, raised in the state that the last draw left. *)
Theorem source_composite_raises_only :
  forall (uid : nat) (d : Def.t) (gens : list strategy) (src : source) (e : exn)
         (src' : source),
    In d source_definitions ->
    List.length gens = List.length (checks d) ->
    do_draw (CompositeStrategy uid d gens) src = (Raise e, src') ->
    (exists i g src0, nth_error gens i = Some g /\ do_draw g src0 = (Raise e, src')) \/
    (exists vs i f t v,
        draw_all do_draw gens src = (Return vs, src') /\
        nth_error (_fields (record_class d)) i = Some f /\
        nth_error (checks d) i = Some (Some t) /\
        nth_error vs i = Some v /\
        isinstance v t = false /\
        e = KeyError (f ++ "_value") /\
        forall j c x, (j < i)%nat -> nth_error (checks d) j = Some c ->
                      nth_error vs j = Some x -> accepts c x = true).
Proof.
  intros uid d gens src e src' Hd Hlen H.
  change (do_draw (CompositeStrategy uid d gens)) with (apply_definition do_draw d gens) in H.
  rewrite apply_definition_generic in H by exact Hlen.
  unfold generic_composite, bind, lift in H.
  destruct (draw_all do_draw gens src) as [[vs | e0] src1] eqn:E.
  - right. injection H as H Hs. subst src1.
    unfold assemble in H.
    destruct (first_rejection d (_fields (record_class d)) (checks d) gens vs)
      as [e1 |] eqn:Hrej.
    + injection H as H. subst e1.
      destruct (first_rejection_first _ _ _ _ _ Hrej)
        as (i & f & t & g & v & Hf & Hc & Hg & Hv & Hno & He & Hbefore).
      exists vs, i, f, t, v. split; [reflexivity |].
      repeat (split; [assumption |]).
      split; [| exact Hbefore].
      rewrite He. apply source_check_failure. exact Hd.
    + unfold new in H.
      rewrite (@draw_all_length _ do_draw _ _ _ _ E), Hlen, <- fields_and_checks,
        Nat.eqb_refl in H.
      discriminate H.
  - left. injection H as H Hs. subst e0 src1.
    eapply draw_all_raises. exact E.
Qed.

Lemma source_composite_raises_only_witness :
  In Def.point source_definitions /\
  List.length [JustStrategy 0 (VFloat 1); JustStrategy 1 (VStr "no");
               JustStrategy 2 (VInt 3)] = List.length (checks Def.point) /\
  do_draw (CompositeStrategy 3 Def.point
             [JustStrategy 0 (VFloat 1); JustStrategy 1 (VStr "no");
              JustStrategy 2 (VInt 3)]) [5; 6]%nat
  = (Raise (KeyError "y_value"), [5; 6]%nat) /\
  ((exists i g src0,
       nth_error [JustStrategy 0 (VFloat 1); JustStrategy 1 (VStr "no");
                  JustStrategy 2 (VInt 3)] i = Some g /\
       do_draw g src0 = (Raise (KeyError "y_value"), [5; 6]%nat)) \/
   (exists vs i f t v,
       draw_all do_draw [JustStrategy 0 (VFloat 1); JustStrategy 1 (VStr "no");
                         JustStrategy 2 (VInt 3)] [5; 6]%nat
       = (Return vs, [5; 6]%nat) /\
       nth_error (_fields (record_class Def.point)) i = Some f /\
       nth_error (checks Def.point) i = Some (Some t) /\
       nth_error vs i = Some v /\
       isinstance v t = false /\
       KeyError "y_value" = KeyError (f ++ "_value") /\
       forall j c x, (j < i)%nat -> nth_error (checks Def.point) j = Some c ->
                     nth_error vs j = Some x -> accepts c x = true)).
Proof.
  split; [simpl; tauto |]. split; [reflexivity |]. split; [reflexivity |].
  apply (@source_composite_raises_only 3 Def.point
           [JustStrategy 0 (VFloat 1); JustStrategy 1 (VStr "no"); JustStrategy 2 (VInt 3)]
           [5; 6]%nat (KeyError "y_value") [5; 6]%nat).
  - simpl; tauto.
  - reflexivity.
  - reflexivity.
Defined.

(** X2.  When a field generator raises, the draw stops there: the
    composite raises the same exception, and the engine state is the one
    the raising generator left, so that no later field has been drawn
    from.  Nothing is caught, retried or replaced by a default. *)
Theorem field_exception_stops_the_draw :
  forall (uid : nat) (d : Def.t) (before : list strategy) (g : strategy)
         (after : list strategy) (src : source) (vs : list pyval) (src1 : source)
         (e : exn) (src2 : source),
    List.length (before ++ g :: after) = List.length (checks d) ->
    draw_all do_draw before src = (Return vs, src1) ->
    do_draw g src1 = (Raise e, src2) ->
    do_draw (CompositeStrategy uid d (before ++ g :: after)) src = (Raise e, src2).
Proof.
  intros uid d before g after src vs src1 e src2 Hlen Hbefore Hg.
  change (do_draw (CompositeStrategy uid d (before ++ g :: after)))
    with (apply_definition do_draw d (before ++ g :: after)).
  rewrite apply_definition_generic by exact Hlen.
  unfold generic_composite, bind, lift.
  assert (H : draw_all do_draw (before ++ g :: after) src = (Raise e, src2)).
  { clear Hlen. revert src vs Hbefore.
    induction before as [| b before IH]; intros src vs Hbefore; simpl.
    - simpl in Hbefore. injection Hbefore as _ Hs. subst src1.
      unfold bind. rewrite Hg. reflexivity.
    - simpl in Hbefore. unfold bind in *.
      destruct (do_draw b src) as [[v | e0] s0]; [| discriminate Hbefore].
      destruct (draw_all do_draw before s0) as [[vs0 | e0] s1] eqn:E; [| discriminate Hbefore].
      injection Hbefore as _ Hs. subst s1.
      rewrite (IH s0 vs0 E). reflexivity. }
  rewrite H. reflexivity.
Qed.

Lemma field_exception_stops_the_draw_witness :
  List.length ([JustStrategy 0 (VStr "h")]
               ++ CompositeStrategy 4 Def.point
                    [JustStrategy 1 (VInt 1); FloatsStrategy 2 None None;
                     FloatsStrategy 3 None None]
               :: [FloatsStrategy 5 None None])
  = List.length (checks Def.transform_stamped) /\
  do_draw (CompositeStrategy 6 Def.transform_stamped
             ([JustStrategy 0 (VStr "h")]
              ++ CompositeStrategy 4 Def.point
                   [JustStrategy 1 (VInt 1); FloatsStrategy 2 None None;
                    FloatsStrategy 3 None None]
              :: [FloatsStrategy 5 None None])) [7; 8; 9; 10]%nat
  = (Raise (KeyError "x_value"), [9; 10]%nat).
Proof.
  split; [reflexivity |].
  apply (@field_exception_stops_the_draw 6 Def.transform_stamped
           [JustStrategy 0 (VStr "h")]
           (CompositeStrategy 4 Def.point
              [JustStrategy 1 (VInt 1); FloatsStrategy 2 None None;
               FloatsStrategy 3 None None])
           [FloatsStrategy 5 None None]
           [7; 8; 9; 10]%nat [VStr "h"] [7; 8; 9; 10]%nat
           (KeyError "x_value") [9; 10]%nat).
  - reflexivity.
  - reflexivity.
  - reflexivity.
Defined.

(** X3.  Whatever the generators are, a record that a draw returns is an
    instance of the record class of the definition, has one item per
    field, and every item of a checked field is an instance of the type
    the definition checks it against. *)
Theorem returned_record_passed_its_checks :
  forall (uid : nat) (d : Def.t) (gens : list strategy) (src : source) (v : pyval)
         (src' : source),
    do_draw (CompositeStrategy uid d gens) src = (Return v, src') ->
    exists items,
      v = VTuple (Some (record_class d)) items /\
      List.length items = List.length (_fields (record_class d)) /\
      forall i t x, nth_error (checks d) i = Some (Some t) ->
                    nth_error items i = Some x -> isinstance x t = true.
Proof.
  intros uid d gens src v src' H.
  change (do_draw (CompositeStrategy uid d gens)) with (apply_definition do_draw d gens) in H.
  destruct (Nat.eq_dec (List.length gens) (List.length (checks d))) as [Hlen | Hlen].
  - rewrite apply_definition_generic in H by exact Hlen.
    unfold generic_composite, bind, lift in H.
    destruct (draw_all do_draw gens src) as [[vs | e0] src1] eqn:E; [| discriminate H].
    injection H as H _. unfold assemble in H.
    destruct (first_rejection d (_fields (record_class d)) (checks d) gens vs)
      as [e1 |] eqn:Hrej; [discriminate H |].
    apply new_returns in H. destruct H as [Hv Hitems].
    exists vs. split; [exact Hv |]. split; [exact Hitems |].
    intros i t x Hc Hx.
    exact (@first_rejection_none d _ _ _ _ Hrej (fields_and_checks d) Hlen i (Some t) x Hc Hx).
  - rewrite apply_definition_arity in H by exact Hlen. discriminate H.
Qed.

Lemma returned_record_passed_its_checks_witness :
  do_draw (CompositeStrategy 9 Def.quaternion
             [FloatsStrategy 0 None None; FloatsStrategy 1 None None;
              FloatsStrategy 2 None None; FloatsStrategy 3 None None]) [2; 5; 4; 7; 1]%nat
  = (Return (VTuple (Some _Quaternion) [VFloat 1; VFloat (-2); VFloat 2; VFloat (-3)]),
     [1]%nat) /\
  exists items,
    VTuple (Some _Quaternion) [VFloat 1; VFloat (-2); VFloat 2; VFloat (-3)]
    = VTuple (Some (record_class Def.quaternion)) items /\
    List.length items = List.length (_fields (record_class Def.quaternion)) /\
    forall i t x, nth_error (checks Def.quaternion) i = Some (Some t) ->
                  nth_error items i = Some x -> isinstance x t = true.
Proof.
  split; [reflexivity |].
  exact (@returned_record_passed_its_checks 9 Def.quaternion
           [FloatsStrategy 0 None None; FloatsStrategy 1 None None;
            FloatsStrategy 2 None None; FloatsStrategy 3 None None]
           [2; 5; 4; 7; 1]%nat
           (VTuple (Some _Quaternion) [VFloat 1; VFloat (-2); VFloat 2; VFloat (-3)])
           [1]%nat eq_refl).
Defined.

(** ** The default generators produce well-formed messages *)

Lemma produces_weaken (s : strategy) (P Q : pyval -> Prop) :
  (forall v, P v -> Q v) -> produces s P -> produces s Q.
Proof.
  intros HPQ H src. destruct (H src) as (v & src' & Hv & HP).
  exists v, src'. split; [exact Hv | apply HPQ; exact HP].
Qed.

Lemma produces_float64 (uid : nat) (lo hi : option float) :
  produces (FloatsStrategy uid lo hi) (conforms Float64).
Proof.
  intro src. destruct (floats_draw_a_float uid lo hi src) as (x & src' & H).
  exists (VFloat x), src'. split; [exact H | constructor].
Qed.

Lemma produces_uint (uid : nat) (hi : Z) :
  (0 <= hi)%Z -> produces (IntegersStrategy uid 0 hi) (conforms (Uint hi)).
Proof.
  intros Hhi src.
  destruct (@integers_in_range uid 0 hi src Hhi) as (v & src' & H & Hrange).
  exists (VInt v), src'. split; [exact H | constructor; exact Hrange].
Qed.

Lemma produces_string (uid : nat) (a : option string) (lo hi : nat) :
  produces (TextStrategy uid a lo hi) (conforms String_).
Proof.
  intro src. destruct (text_draws_a_string uid a lo hi src) as (x & src' & H).
  exists (VStr x), src'. split; [exact H | constructor].
Qed.

Lemma produces_items (elements : strategy) (P : pyval -> Prop) (n : nat) :
  produces elements P ->
  forall src, exists l src',
      draw_many (do_draw elements) n src = (Return l, src') /\
      List.length l = n /\ Forall P l.
Proof.
  intro He. induction n as [| n IH]; intro src; simpl.
  - exists [], src. repeat split. constructor.
  - unfold bind. destruct (He src) as (v & src1 & Hv & HP). rewrite Hv.
    destruct (IH src1) as (l & src2 & Hl & Hlen & Hall). rewrite Hl.
    exists (v :: l), src2. split; [reflexivity |]. split.
    + simpl. f_equal. exact Hlen.
    + constructor; assumption.
Qed.

Lemma produces_array (uid : nat) (elements : strategy) (element : shape) (lo hi : nat) :
  produces elements (conforms element) ->
  produces (ListStrategy uid elements lo hi) (conforms (Array element None)) /\
  (lo = hi -> produces (ListStrategy uid elements lo hi) (conforms (Array element (Some lo)))).
Proof.
  intro He. split.
  - intro src. simpl. unfold bind at 1.
    destruct (choice_returns src) as (k & src1 & Hk). rewrite Hk. unfold bind.
    destruct (produces_items (size_between lo hi k) He src1) as (l & src2 & Hl & _ & Hall).
    rewrite Hl. exists (VList l), src2. split; [reflexivity |].
    constructor; [exact I | exact Hall].
  - intros Heq src. subst hi. simpl. unfold bind at 1.
    destruct (choice_returns src) as (k & src1 & Hk). rewrite Hk. unfold bind.
    rewrite size_between_fixed.
    destruct (produces_items lo He src1) as (l & src2 & Hl & Hlen & Hall).
    rewrite Hl. exists (VList l), src2. split; [reflexivity |].
    constructor; [exact Hlen | exact Hall].
Qed.

Lemma draw_all_produces (gens : list strategy) (shapes : list shape) :
  Forall2 (fun g sh => produces g (conforms sh)) gens shapes ->
  forall src, exists vs src',
      draw_all do_draw gens src = (Return vs, src') /\ Forall2 conforms shapes vs.
Proof.
  induction 1 as [| g sh gens shapes Hg _ IH]; intro src; simpl.
  - exists [], src. split; [reflexivity | constructor].
  - unfold bind. destruct (Hg src) as (v & src1 & Hv & Hsh). rewrite Hv.
    destruct (IH src1) as (vs & src2 & Hvs & Hshs). rewrite Hvs.
    exists (v :: vs), src2. split; [reflexivity | constructor; assumption].
Qed.

(** A value of the shape of a field passes the check of the field, when
    the field has one. *)
Lemma conforming_values_are_accepted (d : Def.t) :
  Forall2 (fun sh c => forall v, conforms sh v -> accepts c v = true)
          (field_shapes d) (checks d).
Proof.
  destruct d; simpl;
    repeat first [apply Forall2_nil | apply Forall2_cons];
    intros v Hv; inversion Hv; subst; reflexivity.
Qed.

Lemma accepted_by_shape (shapes : list shape) (cs : list (option pytype)) :
  Forall2 (fun sh c => forall v, conforms sh v -> accepts c v = true) shapes cs ->
  forall vs, Forall2 conforms shapes vs ->
             forallb (fun p => accepts (fst p) (snd p)) (combine cs vs) = true.
Proof.
  induction 1 as [| sh c shapes cs Hc _ IH]; intros vs Hvs.
  - reflexivity.
  - inversion Hvs as [| sh' v shapes' vs' Hv Hrest]; subst. simpl.
    rewrite (Hc v Hv). simpl. apply IH. exact Hrest.
Qed.

(** A composite over generators of well-formed fields generates
    well-formed messages. *)
Lemma produces_message (uid : nat) (d : Def.t) (gens : list strategy) :
  Forall2 (fun g sh => produces g (conforms sh)) gens (field_shapes d) ->
  produces (CompositeStrategy uid d gens) (conforms (Message d)).
Proof.
  intros Hgens src.
  assert (Hlen : List.length gens = List.length (checks d)).
  { rewrite (Forall2_length Hgens). destruct d; reflexivity. }
  change (do_draw (CompositeStrategy uid d gens)) with (apply_definition do_draw d gens).
  rewrite apply_definition_generic by exact Hlen.
  unfold generic_composite, bind, lift.
  destruct (draw_all_produces Hgens src) as (vs & src' & Hvs & Hshapes). rewrite Hvs.
  rewrite assemble_accepted.
  - eexists _, _. split; [reflexivity |]. constructor. exact Hshapes.
  - rewrite (@draw_all_length _ do_draw _ _ _ _ Hvs). exact Hlen.
  - apply (accepted_by_shape (conforming_values_are_accepted d)). exact Hshapes.
Qed.

Ltac shaped_fields :=
  repeat first
    [ apply Forall2_nil
    | apply Forall2_cons
    | apply produces_float64
    | apply produces_string
    | apply produces_uint; discriminate ].

Lemma default_messages (uid : nat) (d : Def.t) :
  produces (CompositeStrategy uid d (map snd (signature_of d))) (conforms (Message d)).
Proof.
  assert (Htime : forall u, produces (CompositeStrategy u Def.time
                                        (map snd (signature_of Def.time)))
                                     (conforms (Message Def.time))).
  { intro u. apply produces_message. simpl. shaped_fields. }
  assert (Hheader : forall u, produces (CompositeStrategy u Def.header
                                          (map snd (signature_of Def.header)))
                                       (conforms (Message Def.header))).
  { intro u. apply produces_message. simpl. shaped_fields. apply Htime. }
  assert (Hpoint : forall u, produces (CompositeStrategy u Def.point
                                         (map snd (signature_of Def.point)))
                                      (conforms (Message Def.point))).
  { intro u. apply produces_message. simpl. shaped_fields. }
  assert (Hquaternion : forall u, produces (CompositeStrategy u Def.quaternion
                                              (map snd (signature_of Def.quaternion)))
                                           (conforms (Message Def.quaternion))).
  { intro u. apply produces_message. simpl. shaped_fields. }
  assert (Hvector3 : forall u, produces (CompositeStrategy u Def.vector3
                                           (map snd (signature_of Def.vector3)))
                                        (conforms (Message Def.vector3))).
  { intro u. apply produces_message. simpl. shaped_fields. }
  assert (Hpose : forall u, produces (CompositeStrategy u Def.pose
                                        (map snd (signature_of Def.pose)))
                                     (conforms (Message Def.pose))).
  { intro u. apply produces_message. simpl. shaped_fields.
    - apply Hpoint.
    - apply Hquaternion. }
  assert (Htransform : forall u, produces (CompositeStrategy u Def.transform
                                             (map snd (signature_of Def.transform)))
                                          (conforms (Message Def.transform))).
  { intro u. apply produces_message. simpl. shaped_fields.
    - apply Hvector3.
    - apply Hquaternion. }
  assert (Hpwc : forall u, produces (CompositeStrategy u Def.pose_with_covariance
                                       (map snd (signature_of Def.pose_with_covariance)))
                                    (conforms (Message Def.pose_with_covariance))).
  { intro u. apply produces_message. simpl. shaped_fields.
    - apply Hpose.
    - apply produces_array; [apply produces_float64 | reflexivity]. }
  destruct d.
  - apply Htime.
  - apply Hheader.
  - apply Hpoint.
  - apply Hquaternion.
  - apply Hpose.
  - apply Hpwc.
  - apply produces_message. simpl. shaped_fields.
    + apply Hheader.
    + apply Hpwc.
  - apply Hvector3.
  - apply Htransform.
  - apply produces_message. simpl. shaped_fields.
    + apply Hheader.
    + apply Htransform.
  - apply produces_message. simpl. shaped_fields.
    + apply Hheader.
    + apply produces_array. apply produces_string.
Qed.

(** X4.  A composite preserves well-formedness: when every field
    generator always draws a value of the shape of its field (a float, a
    string, an integer within the range of the field, a list of 36 floats
    for the covariance, a record that is itself well formed for a nested
    message), every draw from the composite returns a message that is
    well formed at every depth.  This is so for the defaults of the
    definitions whose leaves are all [float64] fields: called without
    arguments they are built without error and every draw returns a well
    formed message, so that their default generators pass every check. *)
Theorem well_formed_fields_give_well_formed_messages :
  (forall (uid : nat) (d : Def.t) (gens : list strategy),
      In d source_definitions ->
      Forall2 (fun g sh => produces g (conforms sh)) gens (field_shapes d) ->
      produces (CompositeStrategy uid d gens) (conforms (Message d))) /\
  (forall (d : Def.t) (n : nat),
      In d float_only_definitions ->
      exists s, fst (call d [] [] (at_uid n)) = Return s /\
                produces s (conforms (Message d))).
Proof.
  split.
  - intros uid d gens _ Hgens. apply produces_message. exact Hgens.
  - intros d n _.
    exists (CompositeStrategy n d (map snd (signature_of d))). split.
    + rewrite call_at_uid by reflexivity. reflexivity.
    + apply default_messages.
Qed.

Lemma produces_a_constant (uid : nat) (v : pyval) (sh : shape) :
  conforms sh v -> produces (JustStrategy uid v) (conforms sh).
Proof. intros H src. exists v, src. split; [reflexivity | exact H]. Qed.

Lemma well_formed_fields_give_well_formed_messages_witness :
  In Def.transform_stamped source_definitions /\
  Forall2 (fun g sh => produces g (conforms sh))
    [JustStrategy 0
       (VTuple (Some _Header) [VInt 7; VTuple (Some _Time) [VInt 1; VInt 2]; VStr "map"]);
     JustStrategy 1 (VStr "base_link");
     CompositeStrategy 26 Def.transform (map snd (signature_of Def.transform))]
    (field_shapes Def.transform_stamped) /\
  produces
    (CompositeStrategy 50 Def.transform_stamped
       [JustStrategy 0
          (VTuple (Some _Header) [VInt 7; VTuple (Some _Time) [VInt 1; VInt 2]; VStr "map"]);
        JustStrategy 1 (VStr "base_link");
        CompositeStrategy 26 Def.transform (map snd (signature_of Def.transform))])
    (conforms (Message Def.transform_stamped)).
Proof.
  assert (Hfields :
            Forall2 (fun g sh => produces g (conforms sh))
              [JustStrategy 0
                 (VTuple (Some _Header)
                    [VInt 7; VTuple (Some _Time) [VInt 1; VInt 2]; VStr "map"]);
               JustStrategy 1 (VStr "base_link");
               CompositeStrategy 26 Def.transform (map snd (signature_of Def.transform))]
              (field_shapes Def.transform_stamped)).
  { simpl. apply Forall2_cons; [| apply Forall2_cons; [| apply Forall2_cons; [| apply Forall2_nil]]].
    - apply produces_a_constant.
      apply (conforms_message Def.header). simpl.
      apply Forall2_cons; [| apply Forall2_cons; [| apply Forall2_cons; [| apply Forall2_nil]]].
      + apply conforms_uint. unfold UINT32_MAX_VALUE. lia.
      + apply (conforms_message Def.time). simpl.
        apply Forall2_cons; [| apply Forall2_cons; [| apply Forall2_nil]];
          apply conforms_uint; unfold UINT32_MAX_VALUE; lia.
      + apply conforms_string.
    - apply produces_a_constant. apply conforms_string.
    - apply (default_messages 26 Def.transform). }
  split; [simpl; tauto |]. split; [exact Hfields |].
  apply (proj1 well_formed_fields_give_well_formed_messages 50 Def.transform_stamped).
  - simpl; tauto.
  - exact Hfields.
Defined.

(** ** Checks are by class, and one level deep *)

Lemma conforming_message_value (d : Def.t) (v : pyval) :
  conforms (Message d) v -> exists items, v = VTuple (Some (record_class d)) items.
Proof. intro H. inversion H; subst. eexists. reflexivity. Qed.

(** X5.  [_Point] and [_Vector3] have the same field names, but the checks
    go by class: [pose] rejects every Vector3 given as its position, and
    [transform] rejects every Point given as its translation. *)
Theorem same_fields_other_class_is_rejected :
  forall (uid : nat) (vector point other : strategy),
    produces vector (conforms (Message Def.vector3)) ->
    produces point (conforms (Message Def.point)) ->
    produces other (fun _ => True) ->
    _fields _Point = _fields _Vector3 /\
    (forall src, fst (do_draw (CompositeStrategy uid Def.pose [vector; other]) src)
                 = Raise (KeyError "position_value")) /\
    (forall src, fst (do_draw (CompositeStrategy uid Def.transform [point; other]) src)
                 = Raise (KeyError "translation_value")).
Proof.
  intros uid vector point other Hvector Hpoint Hother.
  split; [reflexivity |]. split; intro src.
  - change (do_draw (CompositeStrategy uid Def.pose [vector; other]) src)
      with (pose do_draw vector other src).
    unfold pose, bind.
    destruct (Hvector src) as (v & src1 & Hv & Hshape). rewrite Hv.
    destruct (Hother src1) as (w & src2 & Hw & _). rewrite Hw.
    destruct (@conforming_message_value _ _ Hshape) as (items & Hitems). subst v.
    reflexivity.
  - change (do_draw (CompositeStrategy uid Def.transform [point; other]) src)
      with (transform do_draw point other src).
    unfold transform, bind.
    destruct (Hpoint src) as (v & src1 & Hv & Hshape). rewrite Hv.
    destruct (Hother src1) as (w & src2 & Hw & _). rewrite Hw.
    destruct (@conforming_message_value _ _ Hshape) as (items & Hitems). subst v.
    reflexivity.
Qed.

Lemma same_fields_other_class_is_rejected_witness :
  produces (CompositeStrategy 21 Def.vector3 (map snd (signature_of Def.vector3)))
           (conforms (Message Def.vector3)) /\
  produces (CompositeStrategy 12 Def.point (map snd (signature_of Def.point)))
           (conforms (Message Def.point)) /\
  produces (CompositeStrategy 13 Def.quaternion (map snd (signature_of Def.quaternion)))
           (fun _ => True) /\
  forall src,
    fst (do_draw (CompositeStrategy 40 Def.pose
                    [CompositeStrategy 21 Def.vector3 (map snd (signature_of Def.vector3));
                     CompositeStrategy 13 Def.quaternion
                       (map snd (signature_of Def.quaternion))]) src)
    = Raise (KeyError "position_value").
Proof.
  split; [apply default_messages |]. split; [apply default_messages |].
  split; [apply (@produces_weaken _ _ (fun _ => True) (fun _ _ => I) (default_messages 13 Def.quaternion)) |].
  exact (proj1 (proj2
           (@same_fields_other_class_is_rejected 40
              (CompositeStrategy 21 Def.vector3 (map snd (signature_of Def.vector3)))
              (CompositeStrategy 12 Def.point (map snd (signature_of Def.point)))
              (CompositeStrategy 13 Def.quaternion (map snd (signature_of Def.quaternion)))
              (default_messages 21 Def.vector3)
              (default_messages 12 Def.point)
              (@produces_weaken _ _ (fun _ => True) (fun _ _ => I) (default_messages 13 Def.quaternion))))).
Defined.

(** X9.  The check of a nested record looks at its class and not at its
    items: [pose] accepts as position any instance of [_Point], whatever
    it holds, and returns it unchanged inside the pose. *)
Theorem nested_records_are_checked_by_class_only :
  forall (uid u : nat) (items : list pyval) (orientation : strategy),
    produces orientation (conforms (Message Def.quaternion)) ->
    forall src, exists q src',
        do_draw (CompositeStrategy uid Def.pose
                   [JustStrategy u (VTuple (Some _Point) items); orientation]) src
        = (Return (VTuple (Some _Pose) [VTuple (Some _Point) items; q]), src').
Proof.
  intros uid u items orientation Ho src.
  change (do_draw (CompositeStrategy uid Def.pose
                     [JustStrategy u (VTuple (Some _Point) items); orientation]) src)
    with (pose do_draw (JustStrategy u (VTuple (Some _Point) items)) orientation src).
  unfold pose, bind.
  change (do_draw (JustStrategy u (VTuple (Some _Point) items)) src)
    with (@Return pyval (VTuple (Some _Point) items), src).
  destruct (Ho src) as (q & src1 & Hq & Hshape). rewrite Hq.
  destruct (@conforming_message_value _ _ Hshape) as (qs & Hqs). subst q.
  eexists _, src1. reflexivity.
Qed.

Lemma nested_records_are_checked_by_class_only_witness :
  produces (CompositeStrategy 13 Def.quaternion (map snd (signature_of Def.quaternion)))
           (conforms (Message Def.quaternion)) /\
  forall src, exists q src',
      do_draw (CompositeStrategy 40 Def.pose
                 [JustStrategy 39 (VTuple (Some _Point) [VStr "not a float"]);
                  CompositeStrategy 13 Def.quaternion
                    (map snd (signature_of Def.quaternion))]) src
      = (Return (VTuple (Some _Pose) [VTuple (Some _Point) [VStr "not a float"]; q]), src').
Proof.
  split; [apply default_messages |].
  exact (@nested_records_are_checked_by_class_only 40 39 [VStr "not a float"]
           (CompositeStrategy 13 Def.quaternion (map snd (signature_of Def.quaternion)))
           (default_messages 13 Def.quaternion)).
Defined.

(** X8.  The integer checks of [log] accept booleans ([bool] is a
    subclass of [int]): with [level] and [line] fixed to booleans, and the
    other fields given generators of strings and of a list (the header is
    not checked and need only return), every draw returns a Log whose
    level and line are these booleans. *)
Theorem log_accepts_booleans_as_integers :
  forall (uid u1 u2 : nat) (b1 b2 : bool)
         (header name msg file function topics : strategy),
    well_typed header None ->
    well_typed name (Some py_str) ->
    well_typed msg (Some py_str) ->
    well_typed file (Some py_str) ->
    well_typed function (Some py_str) ->
    well_typed topics (Some py_list) ->
    forall src, exists v src',
        do_draw (CompositeStrategy uid Def.log
                   [header; JustStrategy u1 (VBool b1); name; msg; file; function;
                    JustStrategy u2 (VBool b2); topics]) src
        = (Return v, src') /\
        isinstance v (py_class _Log) = true /\
        nth_error (items_of v) 1 = Some (VBool b1) /\
        nth_error (items_of v) 6 = Some (VBool b2).
Proof.
  intros uid u1 u2 b1 b2 header name msg file function topics
         Hheader Hname Hmsg Hfile Hfunction Htopics src.
  assert (Ht : well_typed
                 (CompositeStrategy uid Def.log
                    [header; JustStrategy u1 (VBool b1); name; msg; file; function;
                     JustStrategy u2 (VBool b2); topics])
                 (Some (py_class (record_class Def.log)))).
  { apply composite_well_typed. simpl.
    repeat first [apply Forall2_nil | apply Forall2_cons]; try assumption;
      apply just_well_typed; reflexivity. }
  destruct (Ht src) as (v & src' & Hv & Hacc).
  exists v, src'. split; [exact Hv |]. split; [exact Hacc |]. split.
  - destruct (@composite_item _ _ _ 1 _ _ _ _ Hv eq_refl) as (sti & c & sti' & Hc & Hnth).
    simpl in Hc. injection Hc as Hc _. subst c. exact Hnth.
  - destruct (@composite_item _ _ _ 6 _ _ _ _ Hv eq_refl) as (sti & c & sti' & Hc & Hnth).
    simpl in Hc. injection Hc as Hc _. subst c. exact Hnth.
Qed.

Lemma log_accepts_booleans_as_integers_witness :
  well_typed (JustStrategy 0 VNone) None /\
  well_typed (JustStrategy 2 (VStr "node")) (Some py_str) /\
  well_typed (JustStrategy 7 (VList [VStr "/rosout"])) (Some py_list) /\
  forall src, exists v src',
      do_draw (CompositeStrategy 8 Def.log
                 [JustStrategy 0 VNone; JustStrategy 1 (VBool true);
                  JustStrategy 2 (VStr "node"); JustStrategy 2 (VStr "node");
                  JustStrategy 2 (VStr "node"); JustStrategy 2 (VStr "node");
                  JustStrategy 6 (VBool false); JustStrategy 7 (VList [VStr "/rosout"])]) src
      = (Return v, src') /\
      isinstance v (py_class _Log) = true /\
      nth_error (items_of v) 1 = Some (VBool true) /\
      nth_error (items_of v) 6 = Some (VBool false).
Proof.
  split; [apply just_well_typed; reflexivity |].
  split; [apply just_well_typed; reflexivity |].
  split; [apply just_well_typed; reflexivity |].
  apply (@log_accepts_booleans_as_integers 8 1 6 true false
           (JustStrategy 0 VNone) (JustStrategy 2 (VStr "node"))
           (JustStrategy 2 (VStr "node")) (JustStrategy 2 (VStr "node"))
           (JustStrategy 2 (VStr "node")) (JustStrategy 7 (VList [VStr "/rosout"])));
    apply just_well_typed; reflexivity.
Defined.

(** ** Keywords, field names, and the two copies of a triple *)

(** X6.  The keyword that overrides a field is the name of the field in
    the record for every definition but one: the second parameter of
    [pose_with_covariance_stamped] is [pose_with_covariance], while the
    record calls that field [pose].  An override under the keyword
    [pose_with_covariance] is accepted and bound to the second field; the
    field name [pose] is not a keyword of the function. *)
Theorem keywords_and_field_names :
  filter (fun d => negb (names_agree d)) source_definitions
  = [Def.pose_with_covariance_stamped] /\
  map fst (signature_of Def.pose_with_covariance_stamped)
  = ["header"; "pose_with_covariance"] /\
  _fields (record_class Def.pose_with_covariance_stamped) = ["header"; "pose"] /\
  (forall (g : strategy) (n : nat),
      exists header_default,
        call Def.pose_with_covariance_stamped [] [("pose_with_covariance", g)] (at_uid n)
        = (Return (CompositeStrategy n Def.pose_with_covariance_stamped
                     [header_default; g]), at_uid (S n))) /\
  (forall (g : strategy) (n : nat),
      exists msg,
        call Def.pose_with_covariance_stamped [] [("pose", g)] (at_uid n)
        = (Raise (TypeError msg), at_uid n)).
Proof.
  split; [reflexivity |]. split; [reflexivity |]. split; [reflexivity |]. split.
  - intros g n. eexists. reflexivity.
  - intros g n. eexists. reflexivity.
Qed.

Section Twins.
Variable St : Type.
Variable draw : strategy -> M St pyval.

(** X7.  [vector3] is [point] under another class: from the same
    generators and the same state both raise the same exception, or both
    return, in the same state, records of the same three items, which
    Python's tuple equality does not tell apart. *)
Theorem vector3_is_point_under_another_class :
  forall (x y z : strategy) (st : St),
    match point draw x y z st, vector3 draw x y z st with
    | (Return p, st1), (Return v, st2) =>
        st1 = st2 /\ plain p = plain v /\
        exists a b c, p = VTuple (Some _Point) [a; b; c] /\
                      v = VTuple (Some _Vector3) [a; b; c]
    | (Raise e1, st1), (Raise e2, st2) => e1 = e2 /\ st1 = st2
    | _, _ => False
    end.
Proof.
  intros x y z st. unfold point, vector3, bind.
  destruct (draw x st) as [[a | e] st1]; [| split; reflexivity].
  destruct (draw y st1) as [[b | e] st2]; [| split; reflexivity].
  destruct (draw z st2) as [[c | e] st3]; [| split; reflexivity].
  unfold assert_.
  destruct (isinstance a py_float); [| split; reflexivity].
  destruct (isinstance b py_float); [| split; reflexivity].
  destruct (isinstance c py_float); [| split; reflexivity].
  simpl. split; [reflexivity |]. split; [reflexivity |].
  exists a, b, c. split; reflexivity.
Qed.

End Twins.
